(** * Verification of tools/bodyteleop/webrtc/stream.py

    A shallow embedding of the WebRTC stream builder and of the two session
    roles (offer / answer), followed by the properties of the session
    configuration, the negotiation sequence and the track routing.

    Python objects that are mutated in place and passed around by reference
    (the builder's set of camera types, its two track lists, the session's
    track registry, the peer connection) live in a store; a method is a
    function from the store to an outcome and a new store.  An exception
    keeps the mutations made before it was raised. *)

From Stdlib Require Import Ascii.
From stdpp Require Import gmap strings list fin_maps.

Local Open Scope string_scope.
Local Open Scope list_scope.

(** ** Values exchanged with the engine *)

(** An [aiortc.MediaStreamTrack] as far as this file reads it. *)
Record track := Track { kind : string; id : string }.

(** An [aiortc.RTCSessionDescription]. *)
Record desc := Desc { sdp : string; type : string }.

(** [StreamingOffer] of [webrtc.common]: a description with the declared
    expectations of its sender. *)
Record StreamingOffer := MkStreamingOffer {
  offer_sdp : string;
  offer_type : string;
  video : list string;
  audio : bool
}.

(** What [setRemoteDescription] reads of a [StreamingOffer]. *)
Definition offer_desc (o : StreamingOffer) : desc :=
  Desc (offer_sdp o) (offer_type o).

(** The handle returned by [MediaRelay.subscribe]. *)
Record relay_track := RelayTrack { relay_source : track; relay_buffered : bool }.

(** ** Exceptions and outcomes *)

Inductive exn :=
| AssertionError (msg : string)
| AttributeError (name : string)
| Exception (msg : string)
| KeyError (key : string)
| IndexError
| EngineError (msg : string)   (* raised by aiortc or by the signaling function *)
| BadReference.                (* a reference that holds no object of the expected class *)

Inductive result (A : Type) :=
| Ok (a : A)
| Raise (e : exn).
Arguments Ok {A} a.
Arguments Raise {A} e.

(** ** The store *)

Abbreviation loc := nat.

(** Calls made on the [RTCPeerConnection], in the order they are made. *)
Inductive pc_call :=
| On (event : string)
| AddTransceiver (k : string) (direction : string)
| AddTrack (t : track)
| CreateOffer
| CreateAnswer
| SetLocalDescription (d : desc)
| SetRemoteDescription (d : desc).

Record peer := Peer {
  calls : list pc_call;
  localDescription : option desc;
  remoteDescription : option desc
}.

(** Attributes of a [WebRTCStreamBuilder] instance. *)
Record builder := Builder {
  consumed_camera_tracks : loc;
  consume_audio : bool;
  video_producing_tracks : loc;
  audio_producing_tracks : loc;
  data_channel : option loc;
  message_handler : option loc;
  builder_peer_connection : option loc
}.

Inductive obj :=
| OSet (s : gset string)
| OList (l : list track)
| ODict (d : gmap string track)
| OPeer (p : peer)
| ORelay (subscriptions : list relay_track)
| OBuilder (b : builder).

Abbreviation world := (list obj).

(** ** The monad of methods *)

Definition M (A : Type) : Type := world -> result A * world.

Definition ret {A} (a : A) : M A := fun w => (Ok a, w).

Definition raise {A} (e : exn) : M A := fun w => (Raise e, w).

Definition bind {A B} (m : M A) (f : A -> M B) : M B :=
  fun w => match m w with
           | (Ok a, w') => f a w'
           | (Raise e, w') => (Raise e, w')
           end.

#[global] Instance M_ret : MRet M := @ret.
#[global] Instance M_bind : MBind M := fun A B f m => bind m f.

(** The message of an [assert] that gives none. *)
Definition no_message : string := EmptyString.

(** [assert cond, msg] *)
Definition assert_ (cond : bool) (msg : string) : M unit :=
  if cond then ret tt else raise (AssertionError msg).

(** Lifting a result that does not touch the store. *)
Definition lift {A} (r : result A) : M A := fun w => (r, w).

(** [for x in xs: body x] *)
Fixpoint for_ {A} (xs : list A) (body : A -> M unit) : M unit :=
  match xs with
  | [] => ret tt
  | x :: xs' => body x;; for_ xs' body
  end.

(** Allocation of a new object. *)
Definition alloc (o : obj) : M loc := fun w => (Ok (length w), w ++ [o]).

Definition read (l : loc) : M obj :=
  fun w => match w !! l with
           | Some o => (Ok o, w)
           | None => (Raise BadReference, w)
           end.

Definition write (l : loc) (o : obj) : M unit := fun w => (Ok tt, <[l := o]> w).

Definition read_set (l : loc) : M (gset string) :=
  o ← read l; match o with OSet s => ret s | _ => raise BadReference end.
Definition read_list (l : loc) : M (list track) :=
  o ← read l; match o with OList ts => ret ts | _ => raise BadReference end.
Definition read_dict (l : loc) : M (gmap string track) :=
  o ← read l; match o with ODict d => ret d | _ => raise BadReference end.
Definition read_peer (l : loc) : M peer :=
  o ← read l; match o with OPeer p => ret p | _ => raise BadReference end.
Definition read_builder (l : loc) : M builder :=
  o ← read l; match o with OBuilder b => ret b | _ => raise BadReference end.

(** [s.add(x)] on a set, [l.append(t)] on a list, [d[k] = t] on a dict. *)
Definition set_add (l : loc) (x : string) : M unit :=
  s ← read_set l; write l (OSet ({[x]} ∪ s)).
Definition list_append (l : loc) (t : track) : M unit :=
  ts ← read_list l; write l (OList (ts ++ [t])).
Definition dict_setitem (l : loc) (k : string) (t : track) : M unit :=
  d ← read_dict l; write l (ODict (<[k := t]> d)).

(** ** The connection engine and the signaling function

    Both are external.  The engine answers [createOffer], [createAnswer],
    [setLocalDescription] and [setRemoteDescription] from the state of the
    connection (the call being answered is already in [calls]); for the two
    setters it gives the description that the connection exposes afterwards.
    [on], [addTransceiver] and [addTrack] are recorded in [calls].

    The interpreter is external too: [list(s)] of a set [s] gives the
    elements of [s], each once, in an order that depends on the hash seed of
    the run.  [list_of_set] is that order; nothing but [list_of_set_lists]
    is known of it. *)

Record engine := Engine {
  engine_createOffer : peer -> result desc;
  engine_createAnswer : peer -> result desc;
  engine_setLocalDescription : peer -> desc -> result desc;
  engine_setRemoteDescription : peer -> desc -> result desc;
  list_of_set : gset string -> list string;
  list_of_set_lists : forall s, list_of_set s ≡ₚ elements s
}.

(** [ConnectionProvider]: from the outgoing offer to the remote answer. *)
Definition ConnectionProvider := StreamingOffer -> result desc.

Definition pc_record (l : loc) (c : pc_call) : M unit :=
  p ← read_peer l;
  write l (OPeer (Peer (calls p ++ [c]) (localDescription p) (remoteDescription p))).

Definition pc_on (l : loc) (event : string) : M unit := pc_record l (On event).
Definition pc_addTransceiver (l : loc) (k direction : string) : M unit :=
  pc_record l (AddTransceiver k direction).
Definition pc_addTrack (l : loc) (t : track) : M unit := pc_record l (AddTrack t).

Definition pc_createOffer (eng : engine) (l : loc) : M desc :=
  pc_record l CreateOffer;;
  p ← read_peer l;
  lift (engine_createOffer eng p).

Definition pc_createAnswer (eng : engine) (l : loc) : M desc :=
  pc_record l CreateAnswer;;
  p ← read_peer l;
  lift (engine_createAnswer eng p).

Definition pc_setLocalDescription (eng : engine) (l : loc) (d : desc) : M unit :=
  pc_record l (SetLocalDescription d);;
  p ← read_peer l;
  d' ← lift (engine_setLocalDescription eng p d);
  write l (OPeer (Peer (calls p) (Some d') (remoteDescription p))).

Definition pc_setRemoteDescription (eng : engine) (l : loc) (d : desc) : M unit :=
  pc_record l (SetRemoteDescription d);;
  p ← read_peer l;
  d' ← lift (engine_setRemoteDescription eng p d);
  write l (OPeer (Peer (calls p) (localDescription p) (Some d'))).

(** [MediaRelay.subscribe(track, buffered=...)]: the relay makes a new proxy
    of the track and enters it in its table, kept here as the list of the
    subscriptions made, in the order they were made. *)
Definition relay_subscribe (l : loc) (t : track) (buffered : bool) : M relay_track :=
  o ← read l;
  match o with
  | ORelay subs =>
      write l (ORelay (subs ++ [RelayTrack t buffered]));;
      ret (RelayTrack t buffered)
  | _ => raise BadReference
  end.

(** ** Session instances

    The attributes that [WebRTCBaseStream.__init__] binds, under the names it
    binds them, and the one attribute each subclass adds. *)

Record session := Session {
  peer_connection : loc;
  media_relay : loc;
  expected_incoming_camera_types : loc;
  extected_incoming_audio : bool;
  incoming_camera_tracks : loc;
  incoming_audio_tracks : loc;
  outgoing_video_tracks : loc;
  outgoing_audio_tracks : loc;
  session_provider : option ConnectionProvider;
  offer : option StreamingOffer
}.

Inductive value :=
| VBool (b : bool)
| VRef (l : loc)
| VProvider (f : ConnectionProvider)
| VOffer (o : StreamingOffer).

Definition unbound {A} (name : string) (o : option A) (v : A -> value) : result value :=
  match o with
  | Some a => Ok (v a)
  | None => Raise (AttributeError name)
  end.

(** [self.name]: the classes define no data attribute and no [__getattr__],
    so a name that [__init__] did not bind raises [AttributeError]. *)
Definition getattr (self : session) (name : string) : result value :=
  if String.eqb name "peer_connection" then Ok (VRef (peer_connection self))
  else if String.eqb name "media_relay" then Ok (VRef (media_relay self))
  else if String.eqb name "expected_incoming_camera_types"
       then Ok (VRef (expected_incoming_camera_types self))
  else if String.eqb name "extected_incoming_audio"
       then Ok (VBool (extected_incoming_audio self))
  else if String.eqb name "incoming_camera_tracks" then Ok (VRef (incoming_camera_tracks self))
  else if String.eqb name "incoming_audio_tracks" then Ok (VRef (incoming_audio_tracks self))
  else if String.eqb name "outgoing_video_tracks" then Ok (VRef (outgoing_video_tracks self))
  else if String.eqb name "outgoing_audio_tracks" then Ok (VRef (outgoing_audio_tracks self))
  else if String.eqb name "session_provider" then unbound name (session_provider self) VProvider
  else if String.eqb name "offer" then unbound name (offer self) VOffer
  else Raise (AttributeError name).

Definition attr_ref (self : session) (name : string) : M loc :=
  v ← lift (getattr self name);
  match v with VRef l => ret l | _ => raise BadReference end.

Definition attr_bool (self : session) (name : string) : M bool :=
  v ← lift (getattr self name);
  match v with VBool b => ret b | _ => raise BadReference end.

Definition attr_provider (self : session) (name : string) : M ConnectionProvider :=
  v ← lift (getattr self name);
  match v with VProvider f => ret f | _ => raise BadReference end.

Definition attr_offer (self : session) (name : string) : M StreamingOffer :=
  v ← lift (getattr self name);
  match v with VOffer o => ret o | _ => raise BadReference end.

(** Truth value of an object, as [if x:] takes it. *)
Definition truth (v : value) : M bool :=
  match v with
  | VBool b => ret b
  | VRef l =>
      o ← read l;
      ret (match o with
           | OSet s => negb (bool_decide (s = ∅))
           | OList ts => negb (bool_decide (length ts = 0))
           | ODict d => negb (bool_decide (dom d = ∅))
           | _ => true
           end)
  | _ => ret true
  end.

Definition attr_truth (self : session) (name : string) : M bool :=
  v ← lift (getattr self name); truth v.

(** [s.split(sep)] for a separator of one character.  A Python string is
    held here as its UTF-8 bytes; the byte of [":"] occurs in no multi-byte
    sequence, so splitting bytes and splitting characters agree. *)
Fixpoint split (sep : ascii) (s : string) : list string :=
  match s with
  | EmptyString => [EmptyString]
  | String a s' =>
      if Ascii.eqb a sep then EmptyString :: split sep s'
      else match split sep s' with
           | p :: ps => String a p :: ps
           | [] => [String a EmptyString]
           end
  end.

(** ** WebRTCBaseStream

    The [print] calls of the handlers write to the standard output only and
    are left out.  The loop of [_add_consumer_tracks] over the expected set
    does not use its variable, so the order in which the set is listed plays
    no part in it: it runs once per element. *)

Module WebRTCBaseStream.

Definition __init__ (consumed_camera_types : loc) (consume_audio : bool)
    (video_producer_tracks audio_producer_tracks : loc) : M session :=
  pc ← alloc (OPeer (Peer [] None None));
  relay ← alloc (ORelay []);
  ict ← alloc (ODict ∅);
  iat ← alloc (OList []);
  let self := Session pc relay consumed_camera_types consume_audio ict iat
                      video_producer_tracks audio_producer_tracks None None in
  pc ← attr_ref self "peer_connection"; pc_on pc "connectionstatechange";;
  pc ← attr_ref self "peer_connection"; pc_on pc "datachannel";;
  pc ← attr_ref self "peer_connection"; pc_on pc "track";;
  ret self.

Definition _add_consumer_tracks (self : session) : M unit :=
  cams_ref ← attr_ref self "expected_incoming_camera_types";
  cams ← read_set cams_ref;
  for_ (elements cams) (fun _ =>
    pc ← attr_ref self "peer_connection";
    pc_addTransceiver pc "video" "recvonly");;
  a ← attr_truth self "extected_incoming_audio";
  if (a : bool) then
    pc ← attr_ref self "peer_connection";
    pc_addTransceiver pc "audio" "recvonly"
  else ret tt.

Definition _add_producer_tracks (self : session) : M unit :=
  vts_ref ← attr_ref self "outgoing_video_tracks";
  vts ← read_list vts_ref;
  for_ vts (fun t =>
    pc ← attr_ref self "peer_connection";
    pc_addTrack pc t);;
  ats_ref ← attr_ref self "outgoing_audio_tracks";
  ats ← read_list ats_ref;
  for_ ats (fun t =>
    pc ← attr_ref self "peer_connection";
    pc_addTrack pc t).

Definition _on_incoming_track (self : session) (t : track) : M unit :=
  if bool_decide (kind t = "video") then
    let parts := split ":"%char (id t) in
    if bool_decide (length parts < 2) then ret tt
    else
      camera_type ← match parts with
                    | p :: _ => ret p
                    | [] => raise IndexError
                    end;
      cams_ref ← attr_ref self "expected_incoming_camera_types";
      cams ← read_set cams_ref;
      if bool_decide (camera_type ∈ cams) then
        ict ← attr_ref self "incoming_camera_tracks";
        dict_setitem ict camera_type t
      else ret tt
  else if bool_decide (kind t = "audio") then
    a ← attr_truth self "expected_incoming_audio";
    if (a : bool) then
      iat ← attr_ref self "incoming_audio_tracks";
      list_append iat t
    else ret tt
  else ret tt.

Definition get_incoming_video_track (self : session) (camera_type : string)
    (buffered : bool) : M relay_track :=
  ict ← attr_ref self "incoming_camera_tracks";
  d ← read_dict ict;
  assert_ (bool_decide (camera_type ∈ dom d)) no_message;;
  ict ← attr_ref self "incoming_camera_tracks";
  d ← read_dict ict;
  t ← match d !! camera_type with
      | Some t => ret t
      | None => raise (KeyError camera_type)
      end;
  relay ← attr_ref self "media_relay";
  relay_subscribe relay t buffered.

Definition get_incoming_audio_track (self : session) (buffered : bool) : M relay_track :=
  iat ← attr_ref self "incoming_audio_tracks";
  ts ← read_list iat;
  assert_ (bool_decide (0 < length ts)) no_message;;
  iat ← attr_ref self "incoming_audio_tracks";
  ts ← read_list iat;
  t ← match ts with
      | t :: _ => ret t
      | [] => raise IndexError
      end;
  relay ← attr_ref self "media_relay";
  relay_subscribe relay t buffered.

End WebRTCBaseStream.

(** ** WebRTCOfferStream *)

Module WebRTCOfferStream.

Definition __init__ (provider : ConnectionProvider)
    (consumed_camera_types : loc) (consume_audio : bool)
    (video_producer_tracks audio_producer_tracks : loc) : M session :=
  base ← WebRTCBaseStream.__init__ consumed_camera_types consume_audio
           video_producer_tracks audio_producer_tracks;
  let self := Session (peer_connection base) (media_relay base)
                (expected_incoming_camera_types base) (extected_incoming_audio base)
                (incoming_camera_tracks base) (incoming_audio_tracks base)
                (outgoing_video_tracks base) (outgoing_audio_tracks base)
                (Some provider) (offer base) in
  WebRTCBaseStream._add_producer_tracks self;;
  ret self.

Definition start (eng : engine) (self : session) : M (option desc) :=
  WebRTCBaseStream._add_consumer_tracks self;;
  pc ← attr_ref self "peer_connection";
  offer ← pc_createOffer eng pc;
  pc ← attr_ref self "peer_connection";
  pc_setLocalDescription eng pc offer;;
  pc ← attr_ref self "peer_connection";
  p ← read_peer pc;
  actual_offer ← match localDescription p with
                 | Some d => ret d
                 | None => raise (AttributeError "sdp")
                 end;
  cams_ref ← attr_ref self "expected_incoming_camera_types";
  cams ← read_set cams_ref;
  a ← attr_bool self "extected_incoming_audio";
  let streaming_offer :=
    MkStreamingOffer (sdp actual_offer) (type actual_offer) (list_of_set eng cams) a in
  provider ← attr_provider self "session_provider";
  remote_answer ← lift (provider streaming_offer);
  pc ← attr_ref self "peer_connection";
  pc_setRemoteDescription eng pc remote_answer;;
  pc ← attr_ref self "peer_connection";
  p ← read_peer pc;
  ret (remoteDescription p).

End WebRTCOfferStream.

(** ** WebRTCAnswerStream *)

Module WebRTCAnswerStream.

Definition __init__ (o : StreamingOffer)
    (consumed_camera_types : loc) (consume_audio : bool)
    (video_producer_tracks audio_producer_tracks : loc) : M session :=
  base ← WebRTCBaseStream.__init__ consumed_camera_types consume_audio
           video_producer_tracks audio_producer_tracks;
  ret (Session (peer_connection base) (media_relay base)
         (expected_incoming_camera_types base) (extected_incoming_audio base)
         (incoming_camera_tracks base) (incoming_audio_tracks base)
         (outgoing_video_tracks base) (outgoing_audio_tracks base)
         (session_provider base) (Some o)).

Definition start (eng : engine) (self : session) : M (option desc) :=
  pc ← attr_ref self "peer_connection";
  p ← read_peer pc;
  assert_ (match remoteDescription p with None => true | Some _ => false end)
          "Connection already established";;
  pc ← attr_ref self "peer_connection";
  o ← attr_offer self "offer";
  pc_setRemoteDescription eng pc (offer_desc o);;
  WebRTCBaseStream._add_consumer_tracks self;;
  WebRTCBaseStream._add_producer_tracks self;;
  pc ← attr_ref self "peer_connection";
  answer ← pc_createAnswer eng pc;
  pc ← attr_ref self "peer_connection";
  pc_setLocalDescription eng pc answer;;
  pc ← attr_ref self "peer_connection";
  p ← read_peer pc;
  ret (localDescription p).

End WebRTCAnswerStream.

(** ** WebRTCStreamBuilder *)

Module WebRTCStreamBuilder.

Definition __init__ : M loc :=
  cams ← alloc (OSet ∅);
  vts ← alloc (OList []);
  ats ← alloc (OList []);
  alloc (OBuilder (Builder cams false vts ats None None None)).

Definition add_video_consumer (self : loc) (camera_type : string) : M unit :=
  assert_ (bool_decide (camera_type ∈ ["driver"; "wideRoad"; "road"])) no_message;;
  b ← read_builder self;
  set_add (consumed_camera_tracks b) camera_type.

Definition add_audio_consumer (self : loc) : M unit :=
  b ← read_builder self;
  (if consume_audio b then raise (Exception "Only one audio consumer allowed")
   else ret tt);;
  b ← read_builder self;
  write self (OBuilder (Builder (consumed_camera_tracks b) true
                                (video_producing_tracks b) (audio_producing_tracks b)
                                (data_channel b) (message_handler b)
                                (builder_peer_connection b))).

Definition add_video_producer (self : loc) (t : track) : M unit :=
  assert_ (bool_decide (kind t = "video")) no_message;;
  b ← read_builder self;
  list_append (video_producing_tracks b) t.

Definition add_audio_producer (self : loc) (t : track) : M unit :=
  assert_ (bool_decide (kind t = "audio")) no_message;;
  b ← read_builder self;
  list_append (audio_producing_tracks b) t.

Definition offer (self : loc) (connection_provider : ConnectionProvider) : M session :=
  b ← read_builder self;
  WebRTCOfferStream.__init__ connection_provider
    (consumed_camera_tracks b) (consume_audio b)
    (video_producing_tracks b) (audio_producing_tracks b).

Definition answer (self : loc) (o : StreamingOffer) : M session :=
  b ← read_builder self;
  WebRTCAnswerStream.__init__ o
    (consumed_camera_tracks b) (consume_audio b)
    (video_producing_tracks b) (audio_producing_tracks b).

End WebRTCStreamBuilder.

(** The four mutators of the builder, as one call. *)
Inductive builder_call :=
| AddVideoConsumer (camera_type : string)
| AddAudioConsumer
| AddVideoProducer (t : track)
| AddAudioProducer (t : track).

Definition run_builder_call (self : loc) (c : builder_call) : M unit :=
  match c with
  | AddVideoConsumer camera_type => WebRTCStreamBuilder.add_video_consumer self camera_type
  | AddAudioConsumer => WebRTCStreamBuilder.add_audio_consumer self
  | AddVideoProducer t => WebRTCStreamBuilder.add_video_producer self t
  | AddAudioProducer t => WebRTCStreamBuilder.add_audio_producer self t
  end.

(** The calls that [_add_consumer_tracks] makes for [n] expected camera
    types and an audio flag. *)
Definition consumer_calls (n : nat) (audio_expected : bool) : list pc_call :=
  replicate n (AddTransceiver "video" "recvonly")
  ++ (if audio_expected then [AddTransceiver "audio" "recvonly"] else []).

(** The receive-only placeholders among the calls made on a connection. *)
Definition placeholders (cs : list pc_call) : list (string * string) :=
  omap (fun c => match c with
                 | AddTransceiver k d => Some (k, d)
                 | _ => None
                 end) cs.

(** The objects that [WebRTCBaseStream.__init__] creates, in the order it
    creates them, once the three handlers are registered and [extra] more
    calls have been made on the connection. *)
Definition session_objects (extra : list pc_call) : list obj :=
  [ OPeer (Peer ([On "connectionstatechange"; On "datachannel"; On "track"] ++ extra)
                None None);
    ORelay []; ODict ∅; OList [] ].

(** An engine that accepts whatever it is asked. *)
Definition accepts (eng : engine) : Prop :=
  (forall p, exists d, engine_createOffer eng p = Ok d) /\
  (forall p, exists d, engine_createAnswer eng p = Ok d) /\
  (forall p d, exists d', engine_setLocalDescription eng p d = Ok d') /\
  (forall p d, exists d', engine_setRemoteDescription eng p d = Ok d').

(** Number of separators in a string. *)
Fixpoint occurrences (sep : ascii) (s : string) : nat :=
  match s with
  | EmptyString => 0
  | String a s' => (if Ascii.eqb a sep then 1 else 0) + occurrences sep s'
  end.

(** ** Observations and sample data *)

(** Reading the store from inside a scenario. *)
Definition observe {A} (f : world -> A) : M A := fun w => (Ok (f w), w).

Definition peer_calls (self : session) (w : world) : list pc_call :=
  match w !! peer_connection self with
  | Some (OPeer p) => calls p
  | _ => []
  end.

Definition expected_labels (self : session) (w : world) : gset string :=
  match w !! expected_incoming_camera_types self with
  | Some (OSet s) => s
  | _ => ∅
  end.

Definition registry (self : session) (w : world) : gmap string track :=
  match w !! incoming_camera_tracks self with
  | Some (ODict d) => d
  | _ => ∅
  end.

(** An engine that accepts every description and a signaling function that
    always answers. *)
Definition accepting_engine : engine :=
  Engine (fun _ => Ok (Desc "local offer" "offer"))
         (fun _ => Ok (Desc "local answer" "answer"))
         (fun _ d => Ok d) (fun _ d => Ok d)
         elements (fun _ => Permutation_refl _).

Definition answering_provider : ConnectionProvider :=
  fun _ => Ok (Desc "remote answer" "answer").

(** A builder that expects the road and driver cameras and produces one
    video track, and a session built from it. *)
Definition sample_track : track := Track "video" "driver:0".

Definition sample_builder : builder := Builder 0 false 1 2 None None None.

Definition sample_builder_world : world :=
  [OSet {["road"; "driver"]}; OList [sample_track]; OList []; OBuilder sample_builder].

Definition sample_session : session :=
  Session 4 5 0 false 6 7 1 2 (Some answering_provider) None.

Definition sample_world : world :=
  sample_builder_world ++ session_objects [AddTrack sample_track].

(** The same builder turned into an answer session, one that expects audio. *)
Definition sample_offer : StreamingOffer :=
  MkStreamingOffer "remote offer" "offer" ["driver"] true.

Definition sample_answer_session : session :=
  Session 4 5 0 true 6 7 1 2 None (Some sample_offer).

Definition sample_answer_world : world :=
  [OSet {["road"; "driver"]}; OList [sample_track]; OList [];
   OBuilder (Builder 0 true 1 2 None None None)]
  ++ session_objects [].

(** The session that [offer] and [answer] build from a builder [b] in a
    store [w]: it holds the builder's own set and lists and a copy of its
    flag. *)
Definition session_of (b : builder) (w : world) (provider : option ConnectionProvider)
    (o : option StreamingOffer) : session :=
  Session (length w) (S (length w)) (consumed_camera_tracks b) (consume_audio b)
          (S (S (length w))) (S (S (S (length w))))
          (video_producing_tracks b) (audio_producing_tracks b) provider o.

(** ** Sequences of events

    The engine fires one "track" event per incoming track and the handler
    runs for each, whatever the previous run did; a caller may likewise go on
    using a builder after a call that raised. *)

Definition deliver (self : session) (arrivals : list track) (w : world) : world :=
  foldl (fun w t => snd (WebRTCBaseStream._on_incoming_track self t w)) w arrivals.

Definition run_builder_calls (self : loc) (cs : list builder_call) (w : world) : world :=
  foldl (fun w c => snd (run_builder_call self c w)) w cs.

(** A builder whose set holds camera types of the closed list only and whose
    two lists hold tracks of their own kind. *)
Definition builder_ok (self : loc) (w : world) : Prop :=
  exists b cams vts ats,
    w !! self = Some (OBuilder b) /\
    w !! consumed_camera_tracks b = Some (OSet cams) /\
    w !! video_producing_tracks b = Some (OList vts) /\
    w !! audio_producing_tracks b = Some (OList ats) /\
    video_producing_tracks b <> audio_producing_tracks b /\
    (forall x, x ∈ cams -> x ∈ ["driver"; "wideRoad"; "road"]) /\
    Forall (fun t => kind t = "video") vts /\
    Forall (fun t => kind t = "audio") ats.

(** The tracks attached by [addTrack] among the calls made on a connection. *)
Definition attached (cs : list pc_call) : list track :=
  omap (fun c => match c with
                 | AddTrack t => Some t
                 | _ => None
                 end) cs.

(** More sample data: a signaling function that fails when the labels it is
    sent come as driver, road and answers otherwise, an engine that refuses
    every remote description, the builder of the sample answer
    session, and sessions built from the sample builder. *)
Definition sample_cams : gset string := {["road"; "driver"]}.

Definition failing_provider : ConnectionProvider :=
  fun so => if bool_decide (video so = ["driver"; "road"])
            then Raise (EngineError "signaling failed")
            else Ok (Desc "remote answer" "answer").

Definition rejecting_engine : engine :=
  Engine (fun _ => Ok (Desc "local offer" "offer"))
         (fun _ => Ok (Desc "local answer" "answer"))
         (fun _ d => Ok d) (fun _ _ => Raise (EngineError "invalid description"))
         elements (fun _ => Permutation_refl _).

(** An engine that refuses the local description of a connection on which a
    placeholder was registered. *)
Definition strict_engine : engine :=
  Engine (fun _ => Ok (Desc "local offer" "offer"))
         (fun _ => Ok (Desc "local answer" "answer"))
         (fun p d => match placeholders (calls p) with
                     | [] => Ok d
                     | _ :: _ => Raise (EngineError "no matching media section")
                     end)
         (fun _ d => Ok d)
         elements (fun _ => Permutation_refl _).

(** A run that lists a set in the reverse of the order of [elements], and a
    signaling function whose answer tells the first label it was sent. *)
Definition reversing_engine : engine :=
  Engine (fun _ => Ok (Desc "local offer" "offer"))
         (fun _ => Ok (Desc "local answer" "answer"))
         (fun _ d => Ok d) (fun _ d => Ok d)
         (fun s => reverse (elements s)) (fun s => reverse_Permutation (elements s)).

Definition echo_first_provider : ConnectionProvider :=
  fun so => Ok (Desc (default no_message (head (video so))) "answer").

Definition sample_echo_session : session :=
  Session 4 5 0 false 6 7 1 2 (Some echo_first_provider) None.

Definition sample_failing_session : session :=
  Session 4 5 0 false 6 7 1 2 (Some failing_provider) None.

Definition sample_audio_builder : builder := Builder 0 true 1 2 None None None.

Definition sample_audio_builder_world : world :=
  [OSet sample_cams; OList [sample_track]; OList []; OBuilder sample_audio_builder].

Definition sample_plain_answer_session : session :=
  Session 4 5 0 false 6 7 1 2 None (Some sample_offer).

Definition sample_second_session : session :=
  Session 8 9 0 false 10 11 1 2 None (Some sample_offer).

Definition sample_handlers : list pc_call :=
  [On "connectionstatechange"; On "datachannel"; On "track"].

(** [offer] or [answer], by what the caller supplies. *)
Definition build (builder_ref : loc) (role : ConnectionProvider + StreamingOffer)
    : M session :=
  match role with
  | inl provider => WebRTCStreamBuilder.offer builder_ref provider
  | inr o => WebRTCStreamBuilder.answer builder_ref o
  end.

(** [start] of the class that [build] instantiates. *)
Definition start_of (role : ConnectionProvider + StreamingOffer) (eng : engine)
    (self : session) : M (option desc) :=
  match role with
  | inl _ => WebRTCOfferStream.start eng self
  | inr _ => WebRTCAnswerStream.start eng self
  end.

(** * Properties *)

(** ** Running the monad *)

Lemma bind_run {A B} (m : M A) (f : A -> M B) (w : world) :
  (m ≫= f) w = match m w with
               | (Ok a, w') => f a w'
               | (Raise e, w') => (Raise e, w')
               end.
Proof. reflexivity. Qed.

Lemma bind_Ok {A B} (m : M A) (f : A -> M B) (w w' : world) (a : A) :
  m w = (Ok a, w') -> (m ≫= f) w = f a w'.
Proof. intros H. rewrite bind_run, H. reflexivity. Qed.

Lemma bind_Raise {A B} (m : M A) (f : A -> M B) (w w' : world) (e : exn) :
  m w = (Raise e, w') -> (m ≫= f) w = (Raise e, w').
Proof. intros H. rewrite bind_run, H. reflexivity. Qed.

Lemma for_ext {A} (xs : list A) (f g : A -> M unit) :
  (forall x w, f x w = g x w) -> forall w, for_ xs f w = for_ xs g w.
Proof.
  intros Hfg. induction xs as [|x xs IH]; intros w; simpl; [reflexivity|].
  rewrite !bind_run, Hfg. destruct (g x w) as [[[]|e] w']; [apply IH|reflexivity].
Qed.

(** ** Reading and writing the store *)

Lemma read_set_Ok l w s : w !! l = Some (OSet s) -> read_set l w = (Ok s, w).
Proof. intros H. unfold read_set, read. rewrite bind_run, H. reflexivity. Qed.

Lemma read_list_Ok l w ts : w !! l = Some (OList ts) -> read_list l w = (Ok ts, w).
Proof. intros H. unfold read_list, read. rewrite bind_run, H. reflexivity. Qed.

Lemma read_dict_Ok l w d : w !! l = Some (ODict d) -> read_dict l w = (Ok d, w).
Proof. intros H. unfold read_dict, read. rewrite bind_run, H. reflexivity. Qed.

Lemma read_peer_Ok l w p : w !! l = Some (OPeer p) -> read_peer l w = (Ok p, w).
Proof. intros H. unfold read_peer, read. rewrite bind_run, H. reflexivity. Qed.

Lemma read_builder_Ok l w b : w !! l = Some (OBuilder b) -> read_builder l w = (Ok b, w).
Proof. intros H. unfold read_builder, read. rewrite bind_run, H. reflexivity. Qed.

(** A read never changes the store, whatever its outcome. *)
Lemma read_frame l w r w' : read l w = (r, w') -> w' = w.
Proof. unfold read. destruct (w !! l); intros [= _ <-]; reflexivity. Qed.

Lemma read_set_frame l w r w' : read_set l w = (r, w') -> w' = w.
Proof.
  unfold read_set, read. rewrite bind_run.
  destruct (w !! l) as [[]|]; intros [= _ <-]; reflexivity.
Qed.

Lemma read_list_frame l w r w' : read_list l w = (r, w') -> w' = w.
Proof.
  unfold read_list, read. rewrite bind_run.
  destruct (w !! l) as [[]|]; intros [= _ <-]; reflexivity.
Qed.

Lemma read_builder_frame l w r w' : read_builder l w = (r, w') -> w' = w.
Proof.
  unfold read_builder, read. rewrite bind_run.
  destruct (w !! l) as [[]|]; intros [= _ <-]; reflexivity.
Qed.

Lemma set_add_Ok l w s x :
  w !! l = Some (OSet s) -> set_add l x w = (Ok tt, <[l := OSet ({[x]} ∪ s)]> w).
Proof. intros H. unfold set_add. rewrite (bind_Ok _ _ _ _ _ (read_set_Ok _ _ _ H)). reflexivity. Qed.

Lemma list_append_Ok l w ts t :
  w !! l = Some (OList ts) -> list_append l t w = (Ok tt, <[l := OList (ts ++ [t])]> w).
Proof. intros H. unfold list_append. rewrite (bind_Ok _ _ _ _ _ (read_list_Ok _ _ _ H)). reflexivity. Qed.

Lemma dict_setitem_Ok l w d k t :
  w !! l = Some (ODict d) -> dict_setitem l k t w = (Ok tt, <[l := ODict (<[k := t]> d)]> w).
Proof. intros H. unfold dict_setitem. rewrite (bind_Ok _ _ _ _ _ (read_dict_Ok _ _ _ H)). reflexivity. Qed.

(** A failing [s.add], [l.append] leaves the store as it was. *)
Lemma set_add_Raise l x w e w' : set_add l x w = (Raise e, w') -> w' = w.
Proof.
  unfold set_add. rewrite bind_run.
  destruct (read_set l w) as [[s|e'] w1] eqn:E; [discriminate|].
  apply read_set_frame in E. intros [= _ <-]. exact E.
Qed.

Lemma list_append_Raise l t w e w' : list_append l t w = (Raise e, w') -> w' = w.
Proof.
  unfold list_append. rewrite bind_run.
  destruct (read_list l w) as [[s|e'] w1] eqn:E; [discriminate|].
  apply read_list_frame in E. intros [= _ <-]. exact E.
Qed.

(** Two references to objects of different classes are different. *)
Lemma lookup_insert_other (w : world) (l l' : loc) (o o' x : obj) :
  w !! l = Some o -> w !! l' = Some o' -> o <> o' -> <[l := x]> w !! l' = Some o'.
Proof.
  intros Hl Hl' Hne. rewrite list_lookup_insert_ne; [exact Hl'|].
  intros ->. congruence.
Qed.

(** ** Splitting an identifier *)

Lemma split_nonempty sep s : split sep s <> [].
Proof. destruct s as [|a s]; simpl; [discriminate|]. destruct (Ascii.eqb a sep); [discriminate|]. destruct (split sep s); discriminate. Qed.

(** [split] gives one part more than there are separators, so an identifier
    has fewer than two parts exactly when it has no colon. *)
Lemma length_split sep s : length (split sep s) = S (occurrences sep s).
Proof.
  induction s as [|a s IH]; simpl; [reflexivity|].
  destruct (Ascii.eqb a sep); simpl; [rewrite IH; reflexivity|].
  destruct (split sep s) as [|p ps]; simpl in *; [discriminate|exact IH].
Qed.

(** ** The builder *)

Section Builder.

Variables (self : loc) (b : builder) (w : world).
Hypothesis Hself : w !! self = Some (OBuilder b).

Lemma add_video_consumer_invalid camera_type :
  camera_type ∉ ["driver"; "wideRoad"; "road"] ->
  WebRTCStreamBuilder.add_video_consumer self camera_type w = (Raise (AssertionError no_message), w).
Proof.
  intros H. unfold WebRTCStreamBuilder.add_video_consumer.
  rewrite bool_decide_eq_false_2 by exact H. reflexivity.
Qed.

Lemma add_video_consumer_valid camera_type cams :
  w !! consumed_camera_tracks b = Some (OSet cams) ->
  camera_type ∈ ["driver"; "wideRoad"; "road"] ->
  WebRTCStreamBuilder.add_video_consumer self camera_type w =
    (Ok tt, <[consumed_camera_tracks b := OSet ({[camera_type]} ∪ cams)]> w).
Proof.
  intros Hc H. unfold WebRTCStreamBuilder.add_video_consumer.
  rewrite bool_decide_eq_true_2 by exact H. simpl.
  rewrite bind_run. simpl.
  rewrite (bind_Ok _ _ _ _ _ (read_builder_Ok _ _ _ Hself)).
  apply set_add_Ok, Hc.
Qed.

End Builder.

Lemma add_video_consumer_again self b w cams camera_type n :
  w !! self = Some (OBuilder b) ->
  w !! consumed_camera_tracks b = Some (OSet cams) ->
  camera_type ∈ ["driver"; "wideRoad"; "road"] ->
  camera_type ∈ cams ->
  for_ (replicate n ()) (fun _ => WebRTCStreamBuilder.add_video_consumer self camera_type) w
  = (Ok (), w).
Proof.
  intros Hself Hc Hv Hin. induction n as [|n IH]; simpl; [reflexivity|].
  rewrite bind_run, (add_video_consumer_valid _ _ _ Hself _ _ Hc Hv).
  rewrite (subseteq_union_1_L {[camera_type]} cams) by (apply singleton_subseteq_l, Hin).
  rewrite (list_insert_id _ _ _ Hc). exact IH.
Qed.

(** C9. [add_video_consumer] raises its assertion exactly for a label outside
    ["driver"; "wideRoad"; "road"]; for a label of that list any number of
    calls, one or more, succeeds and leaves the label in the set once, so the
    size of the set grows by at most one. *)
Theorem add_video_consumer_idempotent (self : loc) (b : builder) (w : world)
    (cams : gset string) (camera_type : string) :
  w !! self = Some (OBuilder b) ->
  w !! consumed_camera_tracks b = Some (OSet cams) ->
  (camera_type ∉ ["driver"; "wideRoad"; "road"] ->
     WebRTCStreamBuilder.add_video_consumer self camera_type w
     = (Raise (AssertionError no_message), w)) /\
  (camera_type ∈ ["driver"; "wideRoad"; "road"] ->
     forall n,
       for_ (replicate (S n) ())
            (fun _ => WebRTCStreamBuilder.add_video_consumer self camera_type) w
       = (Ok (), <[consumed_camera_tracks b := OSet ({[camera_type]} ∪ cams)]> w)) /\
  size ({[camera_type]} ∪ cams) <= S (size cams).
Proof.
  intros Hself Hc. split; [|split].
  - apply add_video_consumer_invalid.
  - intros Hv n. simpl.
    rewrite bind_run, (add_video_consumer_valid _ _ _ Hself _ _ Hc Hv).
    apply add_video_consumer_again with (b := b) (cams := {[camera_type]} ∪ cams).
    + eapply lookup_insert_other; [exact Hc|exact Hself|discriminate].
    + apply list_lookup_insert_eq. eapply lookup_lt_Some, Hc.
    + exact Hv.
    + apply elem_of_union_l, elem_of_singleton_2. reflexivity.
  - rewrite size_union_alt, size_singleton.
    assert (size (cams ∖ {[camera_type]}) <= size cams)
      by (apply subseteq_size, subseteq_difference_l; reflexivity).
    lia.
Qed.

(** C10. A builder call that raises leaves the whole store, and with it the
    builder's set of labels, its audio flag and its two track lists, as it
    was before the call. *)
Theorem builder_failure_mutates_nothing (self : loc) (c : builder_call)
    (w w' : world) (e : exn) :
  run_builder_call self c w = (Raise e, w') -> w' = w.
Proof.
  destruct c as [camera_type| |t|t]; simpl.
  - unfold WebRTCStreamBuilder.add_video_consumer.
    destruct (bool_decide _); simpl; rewrite bind_run; simpl; [|intros [= _ <-]; reflexivity].
    rewrite bind_run.
    destruct (read_builder self w) as [[b|e'] w1] eqn:E; apply read_builder_frame in E; subst w1.
    + apply set_add_Raise.
    + intros [= _ <-]; reflexivity.
  - unfold WebRTCStreamBuilder.add_audio_consumer. rewrite bind_run.
    destruct (read_builder self w) as [[b|e'] w1] eqn:E; apply read_builder_frame in E; subst w1.
    + rewrite bind_run. destruct (consume_audio b); simpl; [intros [= _ <-]; reflexivity|].
      rewrite bind_run.
      destruct (read_builder self w) as [[b'|e'] w1] eqn:E; apply read_builder_frame in E; subst w1.
      * discriminate.
      * intros [= _ <-]; reflexivity.
    + intros [= _ <-]; reflexivity.
  - unfold WebRTCStreamBuilder.add_video_producer.
    destruct (bool_decide _); simpl; rewrite bind_run; simpl; [|intros [= _ <-]; reflexivity].
    rewrite bind_run.
    destruct (read_builder self w) as [[b|e'] w1] eqn:E; apply read_builder_frame in E; subst w1.
    + apply list_append_Raise.
    + intros [= _ <-]; reflexivity.
  - unfold WebRTCStreamBuilder.add_audio_producer.
    destruct (bool_decide _); simpl; rewrite bind_run; simpl; [|intros [= _ <-]; reflexivity].
    rewrite bind_run.
    destruct (read_builder self w) as [[b|e'] w1] eqn:E; apply read_builder_frame in E; subst w1.
    + apply list_append_Raise.
    + intros [= _ <-]; reflexivity.
Qed.

(** ** Track arrival *)

(** C8. A video track whose identifier has fewer than two parts between
    colons is dropped: the handler returns normally and the store, and with
    it the registry, is as before. *)
Theorem malformed_identifier_ignored (self : session) (t : track) (w : world) :
  kind t = "video" ->
  length (split ":" (id t)) < 2 ->
  WebRTCBaseStream._on_incoming_track self t w = (Ok (), w).
Proof.
  intros Hk Hlen. unfold WebRTCBaseStream._on_incoming_track.
  rewrite bool_decide_eq_true_2 by exact Hk.
  rewrite bool_decide_eq_true_2 by exact Hlen. reflexivity.
Qed.

(** C4. On an audio track the handler reads [self.expected_incoming_audio],
    a name that [__init__] never binds (it binds [extected_incoming_audio]):
    the handler raises [AttributeError] and stores nothing, for every
    session and whatever its configuration expects. *)
Theorem audio_arrival_raises (self : session) (t : track) (w : world) :
  kind t = "audio" ->
  WebRTCBaseStream._on_incoming_track self t w
  = (Raise (AttributeError "expected_incoming_audio"), w).
Proof.
  intros Hk. unfold WebRTCBaseStream._on_incoming_track.
  rewrite bool_decide_eq_false_2 by (rewrite Hk; discriminate).
  rewrite bool_decide_eq_true_2 by exact Hk. reflexivity.
Qed.

(** ** Calls on the peer connection *)

(** Attribute reads of the names that [__init__] binds. *)
Lemma attr_peer_connection self (w : world) :
  attr_ref self "peer_connection" w = (Ok (peer_connection self), w).
Proof. reflexivity. Qed.
Lemma attr_media_relay self (w : world) :
  attr_ref self "media_relay" w = (Ok (media_relay self), w).
Proof. reflexivity. Qed.
Lemma attr_expected_incoming_camera_types self (w : world) :
  attr_ref self "expected_incoming_camera_types" w
  = (Ok (expected_incoming_camera_types self), w).
Proof. reflexivity. Qed.
Lemma attr_extected_incoming_audio self (w : world) :
  attr_bool self "extected_incoming_audio" w = (Ok (extected_incoming_audio self), w).
Proof. reflexivity. Qed.
Lemma attr_truth_extected_incoming_audio self (w : world) :
  attr_truth self "extected_incoming_audio" w = (Ok (extected_incoming_audio self), w).
Proof. reflexivity. Qed.
Lemma attr_incoming_camera_tracks self (w : world) :
  attr_ref self "incoming_camera_tracks" w = (Ok (incoming_camera_tracks self), w).
Proof. reflexivity. Qed.
Lemma attr_incoming_audio_tracks self (w : world) :
  attr_ref self "incoming_audio_tracks" w = (Ok (incoming_audio_tracks self), w).
Proof. reflexivity. Qed.
Lemma attr_outgoing_video_tracks self (w : world) :
  attr_ref self "outgoing_video_tracks" w = (Ok (outgoing_video_tracks self), w).
Proof. reflexivity. Qed.
Lemma attr_outgoing_audio_tracks self (w : world) :
  attr_ref self "outgoing_audio_tracks" w = (Ok (outgoing_audio_tracks self), w).
Proof. reflexivity. Qed.
Lemma attr_session_provider self provider (w : world) :
  session_provider self = Some provider ->
  attr_provider self "session_provider" w = (Ok provider, w).
Proof. intros H. unfold attr_provider, getattr. simpl. rewrite H. reflexivity. Qed.
Lemma attr_offer_bound self o (w : world) :
  offer self = Some o -> attr_offer self "offer" w = (Ok o, w).
Proof. intros H. unfold attr_offer, getattr. simpl. rewrite H. reflexivity. Qed.

(** The audio handler's name is not among them. *)
Lemma attr_expected_incoming_audio self :
  getattr self "expected_incoming_audio" = Raise (AttributeError "expected_incoming_audio").
Proof. reflexivity. Qed.

Ltac step tac := erewrite bind_Ok by tac; cbv beta.
Ltac step_attr :=
  erewrite bind_Ok
    by first [ apply attr_peer_connection | apply attr_media_relay
             | apply attr_expected_incoming_camera_types
             | apply attr_extected_incoming_audio
             | apply attr_truth_extected_incoming_audio
             | apply attr_incoming_camera_tracks | apply attr_incoming_audio_tracks
             | apply attr_outgoing_video_tracks | apply attr_outgoing_audio_tracks ];
  cbv beta.

Lemma pc_record_Ok l w cs ld rd c :
  w !! l = Some (OPeer (Peer cs ld rd)) ->
  pc_record l c w = (Ok (), <[l := OPeer (Peer (cs ++ [c]) ld rd)]> w).
Proof. intros H. unfold pc_record. step ltac:(apply read_peer_Ok, H). reflexivity. Qed.

Lemma for_record {A} (f : A -> pc_call) l ld rd (xs : list A) :
  forall (w : world) cs,
    w !! l = Some (OPeer (Peer cs ld rd)) ->
    for_ xs (fun x => pc_record l (f x)) w
    = (Ok (), <[l := OPeer (Peer (cs ++ (f <$> xs)) ld rd)]> w).
Proof.
  induction xs as [|x xs IH]; intros w cs H; simpl.
  - rewrite app_nil_r, (list_insert_id _ _ _ H). reflexivity.
  - step ltac:(apply pc_record_Ok, H).
    rewrite (IH _ (cs ++ [f x])).
    + rewrite list_insert_insert_eq, <- app_assoc. reflexivity.
    + apply list_lookup_insert_eq. eapply lookup_lt_Some, H.
Qed.

Section Session.

Variables (eng : engine) (self : session).

Let pc := peer_connection self.

Lemma for_addTransceiver {A} (xs : list A) k d (w : world) cs ld rd :
  w !! pc = Some (OPeer (Peer cs ld rd)) ->
  for_ xs (fun _ => l ← attr_ref self "peer_connection"; pc_addTransceiver l k d) w
  = (Ok (), <[pc := OPeer (Peer (cs ++ replicate (length xs) (AddTransceiver k d)) ld rd)]> w).
Proof.
  intros H.
  rewrite (for_ext xs _ (fun _ => pc_record pc (AddTransceiver k d)))
    by (intros; reflexivity).
  rewrite (for_record _ _ _ _ _ _ _ H).
  rewrite (const_fmap _ xs (AddTransceiver k d)) by reflexivity. reflexivity.
Qed.

Lemma for_addTrack (ts : list track) (w : world) cs ld rd :
  w !! pc = Some (OPeer (Peer cs ld rd)) ->
  for_ ts (fun t => l ← attr_ref self "peer_connection"; pc_addTrack l t) w
  = (Ok (), <[pc := OPeer (Peer (cs ++ (AddTrack <$> ts)) ld rd)]> w).
Proof.
  intros H.
  rewrite (for_ext ts _ (fun t => pc_record pc (AddTrack t))) by (intros; reflexivity).
  apply for_record, H.
Qed.

Lemma add_consumer_tracks_Ok (w : world) cams cs ld rd :
  w !! expected_incoming_camera_types self = Some (OSet cams) ->
  w !! pc = Some (OPeer (Peer cs ld rd)) ->
  WebRTCBaseStream._add_consumer_tracks self w
  = (Ok (), <[pc := OPeer (Peer (cs ++ consumer_calls (size cams)
                                         (extected_incoming_audio self)) ld rd)]> w).
Proof.
  intros Hc Hp. unfold WebRTCBaseStream._add_consumer_tracks.
  step_attr. step ltac:(apply read_set_Ok, Hc).
  step ltac:(apply for_addTransceiver, Hp).
  step_attr. unfold consumer_calls, size, set_size.
  destruct (extected_incoming_audio self).
  - step_attr. unfold pc_addTransceiver.
    erewrite pc_record_Ok
      by (apply list_lookup_insert_eq; eapply lookup_lt_Some, Hp).
    rewrite list_insert_insert_eq, <- app_assoc. reflexivity.
  - rewrite app_nil_r. reflexivity.
Qed.

Lemma add_producer_tracks_Ok (w : world) vts ats cs ld rd :
  w !! outgoing_video_tracks self = Some (OList vts) ->
  w !! outgoing_audio_tracks self = Some (OList ats) ->
  w !! pc = Some (OPeer (Peer cs ld rd)) ->
  WebRTCBaseStream._add_producer_tracks self w
  = (Ok (), <[pc := OPeer (Peer (cs ++ (AddTrack <$> vts) ++ (AddTrack <$> ats)) ld rd)]> w).
Proof.
  intros Hv Ha Hp. unfold WebRTCBaseStream._add_producer_tracks.
  step_attr. step ltac:(apply read_list_Ok, Hv).
  step ltac:(apply for_addTrack, Hp).
  step_attr.
  step ltac:(apply read_list_Ok; eapply lookup_insert_other;
             [exact Hp|exact Ha|discriminate]).
  erewrite for_addTrack
    by (apply list_lookup_insert_eq; eapply lookup_lt_Some, Hp).
  rewrite list_insert_insert_eq, <- app_assoc. reflexivity.
Qed.

Lemma pc_createOffer_run (w : world) cs ld rd :
  w !! pc = Some (OPeer (Peer cs ld rd)) ->
  pc_createOffer eng pc w
  = (engine_createOffer eng (Peer (cs ++ [CreateOffer]) ld rd),
     <[pc := OPeer (Peer (cs ++ [CreateOffer]) ld rd)]> w).
Proof.
  intros Hp. unfold pc_createOffer.
  step ltac:(apply pc_record_Ok, Hp).
  step ltac:(apply read_peer_Ok, list_lookup_insert_eq; eapply lookup_lt_Some, Hp).
  reflexivity.
Qed.

Lemma pc_createAnswer_run (w : world) cs ld rd :
  w !! pc = Some (OPeer (Peer cs ld rd)) ->
  pc_createAnswer eng pc w
  = (engine_createAnswer eng (Peer (cs ++ [CreateAnswer]) ld rd),
     <[pc := OPeer (Peer (cs ++ [CreateAnswer]) ld rd)]> w).
Proof.
  intros Hp. unfold pc_createAnswer.
  step ltac:(apply pc_record_Ok, Hp).
  step ltac:(apply read_peer_Ok, list_lookup_insert_eq; eapply lookup_lt_Some, Hp).
  reflexivity.
Qed.

Lemma pc_setLocalDescription_run (w : world) cs ld rd d :
  w !! pc = Some (OPeer (Peer cs ld rd)) ->
  pc_setLocalDescription eng pc d w
  = match engine_setLocalDescription eng (Peer (cs ++ [SetLocalDescription d]) ld rd) d with
    | Ok d' => (Ok (), <[pc := OPeer (Peer (cs ++ [SetLocalDescription d]) (Some d') rd)]> w)
    | Raise e => (Raise e, <[pc := OPeer (Peer (cs ++ [SetLocalDescription d]) ld rd)]> w)
    end.
Proof.
  intros Hp. unfold pc_setLocalDescription.
  step ltac:(apply pc_record_Ok, Hp).
  step ltac:(apply read_peer_Ok, list_lookup_insert_eq; eapply lookup_lt_Some, Hp).
  rewrite bind_run. unfold lift. simpl.
  destruct (engine_setLocalDescription eng _ d); [|reflexivity].
  unfold write. rewrite list_insert_insert_eq. reflexivity.
Qed.

Lemma pc_setRemoteDescription_run (w : world) cs ld rd d :
  w !! pc = Some (OPeer (Peer cs ld rd)) ->
  pc_setRemoteDescription eng pc d w
  = match engine_setRemoteDescription eng (Peer (cs ++ [SetRemoteDescription d]) ld rd) d with
    | Ok d' => (Ok (), <[pc := OPeer (Peer (cs ++ [SetRemoteDescription d]) ld (Some d'))]> w)
    | Raise e => (Raise e, <[pc := OPeer (Peer (cs ++ [SetRemoteDescription d]) ld rd)]> w)
    end.
Proof.
  intros Hp. unfold pc_setRemoteDescription.
  step ltac:(apply pc_record_Ok, Hp).
  step ltac:(apply read_peer_Ok, list_lookup_insert_eq; eapply lookup_lt_Some, Hp).
  rewrite bind_run. unfold lift. simpl.
  destruct (engine_setRemoteDescription eng _ d); [|reflexivity].
  unfold write. rewrite list_insert_insert_eq. reflexivity.
Qed.

End Session.

(** ** Negotiation *)

Lemma peer_after_call (w : world) (l : loc) o p :
  w !! l = Some o -> <[l := OPeer p]> w !! l = Some (OPeer p).
Proof. intros H. apply list_lookup_insert_eq. eapply lookup_lt_Some, H. Qed.

Lemma cams_after_call (w : world) (l l' : loc) p0 p cams :
  w !! l = Some (OPeer p0) -> w !! l' = Some (OSet cams) ->
  <[l := OPeer p]> w !! l' = Some (OSet cams).
Proof. intros Hp Hc. eapply lookup_insert_other; [exact Hp|exact Hc|discriminate]. Qed.

Lemma list_after_call (w : world) (l l' : loc) p0 p ts :
  w !! l = Some (OPeer p0) -> w !! l' = Some (OList ts) ->
  <[l := OPeer p]> w !! l' = Some (OList ts).
Proof. intros Hp Hc. eapply lookup_insert_other; [exact Hp|exact Hc|discriminate]. Qed.

Section Negotiation.

Variables (eng : engine) (self : session) (w : world).
Variables (cams : gset string) (cs : list pc_call) (ld rd : option desc).

Hypothesis Hcams : w !! expected_incoming_camera_types self = Some (OSet cams).
Hypothesis Hpeer : w !! peer_connection self = Some (OPeer (Peer cs ld rd)).

Let audio_expected := extected_incoming_audio self.

(** What a completed [start] of the offer side has done. *)
Lemma offer_start_Ok provider r w' :
  session_provider self = Some provider ->
  WebRTCOfferStream.start eng self w = (Ok r, w') ->
  exists off ld' ans rd',
    provider (MkStreamingOffer (sdp ld') (type ld') (list_of_set eng cams) audio_expected)
    = Ok ans /\
    r = Some rd' /\
    w' = <[peer_connection self :=
             OPeer (Peer (cs ++ consumer_calls (size cams) audio_expected
                             ++ [CreateOffer; SetLocalDescription off;
                                 SetRemoteDescription ans])
                         (Some ld') (Some rd'))]> w.
Proof.
  intros Hprov. unfold WebRTCOfferStream.start.
  step ltac:(apply add_consumer_tracks_Ok; [exact Hcams|exact Hpeer]).
  step_attr. rewrite bind_run, pc_createOffer_run with (cs := _) (ld := ld) (rd := rd)
    by (eapply peer_after_call, Hpeer).
  destruct (engine_createOffer eng _) as [off|e]; [|discriminate].
  rewrite list_insert_insert_eq. step_attr.
  rewrite bind_run, pc_setLocalDescription_run with (cs := _) (ld := ld) (rd := rd)
    by (eapply peer_after_call, Hpeer).
  destruct (engine_setLocalDescription eng _ off) as [ld'|e]; [|discriminate].
  rewrite list_insert_insert_eq. step_attr.
  step ltac:(eapply read_peer_Ok, peer_after_call, Hpeer). simpl localDescription.
  rewrite bind_run. simpl. step_attr.
  step ltac:(eapply read_set_Ok, cams_after_call; [exact Hpeer|exact Hcams]).
  step_attr. step ltac:(apply attr_session_provider, Hprov).
  rewrite bind_run. unfold lift.
  destruct (provider _) as [ans|e] eqn:Hans; [|discriminate].
  step_attr.
  rewrite bind_run, pc_setRemoteDescription_run with (cs := _) (ld := Some ld') (rd := rd)
    by (eapply peer_after_call, Hpeer).
  destruct (engine_setRemoteDescription eng _ ans) as [rd'|e]; [|discriminate].
  rewrite list_insert_insert_eq. step_attr.
  step ltac:(eapply read_peer_Ok, peer_after_call, Hpeer).
  intros [= <- <-]. exists off, ld', ans, rd'.
  split; [exact Hans|]. split; [reflexivity|].
  rewrite <- !app_assoc. reflexivity.
Qed.

(** The guard of the answer side. *)
Lemma answer_start_guard d :
  rd = Some d ->
  WebRTCAnswerStream.start eng self w
  = (Raise (AssertionError "Connection already established"), w).
Proof.
  intros ->. unfold WebRTCAnswerStream.start.
  step_attr. step ltac:(apply read_peer_Ok, Hpeer). reflexivity.
Qed.

Variables (vts ats : list track).
Hypothesis Hvts : w !! outgoing_video_tracks self = Some (OList vts).
Hypothesis Hats : w !! outgoing_audio_tracks self = Some (OList ats).

(** What a completed [start] of the answer side has done. *)
Lemma answer_start_Ok o r w' :
  offer self = Some o ->
  WebRTCAnswerStream.start eng self w = (Ok r, w') ->
  rd = None /\
  exists rd' ans ld',
    r = Some ld' /\
    w' = <[peer_connection self :=
             OPeer (Peer (cs ++ [SetRemoteDescription (offer_desc o)]
                             ++ consumer_calls (size cams) audio_expected
                             ++ (AddTrack <$> vts) ++ (AddTrack <$> ats)
                             ++ [CreateAnswer; SetLocalDescription ans])
                         (Some ld') (Some rd'))]> w.
Proof.
  intros Hoffer. unfold WebRTCAnswerStream.start.
  step_attr. step ltac:(apply read_peer_Ok, Hpeer). simpl remoteDescription.
  destruct rd as [d|]; [discriminate|].
  rewrite bind_run. simpl. step_attr.
  step ltac:(apply attr_offer_bound, Hoffer).
  rewrite bind_run, pc_setRemoteDescription_run with (cs := cs) (ld := ld) (rd := None)
    by exact Hpeer.
  destruct (engine_setRemoteDescription eng _ _) as [rd'|e]; [|discriminate].
  step ltac:(apply add_consumer_tracks_Ok;
             [ eapply cams_after_call; [exact Hpeer|exact Hcams]
             | eapply peer_after_call, Hpeer ]).
  rewrite list_insert_insert_eq.
  step ltac:(eapply add_producer_tracks_Ok;
             [ eapply list_after_call; [exact Hpeer|exact Hvts]
             | eapply list_after_call; [exact Hpeer|exact Hats]
             | eapply peer_after_call, Hpeer ]).
  rewrite list_insert_insert_eq. step_attr.
  rewrite bind_run, pc_createAnswer_run with (cs := _) (ld := ld) (rd := Some rd')
    by (eapply peer_after_call, Hpeer).
  destruct (engine_createAnswer eng _) as [ans|e]; [|discriminate].
  rewrite list_insert_insert_eq. step_attr.
  rewrite bind_run, pc_setLocalDescription_run with (cs := _) (ld := ld) (rd := Some rd')
    by (eapply peer_after_call, Hpeer).
  destruct (engine_setLocalDescription eng _ ans) as [ld'|e]; [|discriminate].
  rewrite list_insert_insert_eq. step_attr.
  step ltac:(eapply read_peer_Ok, peer_after_call, Hpeer).
  intros [= <- <-]. split; [reflexivity|]. exists rd', ans, ld'.
  split; [reflexivity|]. rewrite <- !app_assoc. reflexivity.
Qed.

End Negotiation.

(** ** Construction of a session *)

Lemma insert_at_end (w : world) (o x : obj) (rest : list obj) :
  <[length w := x]> (w ++ o :: rest) = w ++ x :: rest.
Proof. induction w as [|y w IH]; simpl; [reflexivity|]. f_equal. exact IH. Qed.

Lemma base_init_run cams_ref flag vts_ref ats_ref (w : world) :
  WebRTCBaseStream.__init__ cams_ref flag vts_ref ats_ref w
  = (Ok (Session (length w) (S (length w)) cams_ref flag
                 (S (S (length w))) (S (S (S (length w)))) vts_ref ats_ref None None),
     w ++ session_objects []).
Proof.
  unfold WebRTCBaseStream.__init__.
  do 4 step ltac:(reflexivity).
  rewrite !length_app. simpl length.
  replace (length w + 1) with (S (length w)) by lia.
  replace (S (length w) + 1) with (S (S (length w))) by lia.
  replace (S (S (length w)) + 1) with (S (S (S (length w)))) by lia.
  rewrite <- !app_assoc. simpl app.
  do 3 (step_attr; step ltac:(eapply pc_record_Ok, list_lookup_middle; reflexivity);
        cbn [peer_connection]; rewrite insert_at_end).
  reflexivity.
Qed.

Section Construction.

Variables (builder_ref : loc) (b : builder) (w : world).
Variables (cams : gset string) (vts ats : list track).

Hypothesis Hself : w !! builder_ref = Some (OBuilder b).
Hypothesis Hcams : w !! consumed_camera_tracks b = Some (OSet cams).
Hypothesis Hvts : w !! video_producing_tracks b = Some (OList vts).
Hypothesis Hats : w !! audio_producing_tracks b = Some (OList ats).

Lemma builder_offer_run provider :
  WebRTCStreamBuilder.offer builder_ref provider w
  = (Ok (session_of b w (Some provider) None),
     w ++ session_objects ((AddTrack <$> vts) ++ (AddTrack <$> ats))).
Proof.
  unfold WebRTCStreamBuilder.offer, WebRTCOfferStream.__init__.
  step ltac:(apply read_builder_Ok, Hself).
  step ltac:(apply base_init_run). simpl.
  step ltac:(eapply add_producer_tracks_Ok;
             [ apply lookup_app_l_Some, Hvts | apply lookup_app_l_Some, Hats
             | apply list_lookup_middle; reflexivity ]).
  simpl peer_connection. unfold session_objects. rewrite insert_at_end. reflexivity.
Qed.

Lemma builder_answer_run o :
  WebRTCStreamBuilder.answer builder_ref o w
  = (Ok (session_of b w None (Some o)), w ++ session_objects []).
Proof.
  unfold WebRTCStreamBuilder.answer, WebRTCAnswerStream.__init__.
  step ltac:(apply read_builder_Ok, Hself).
  step ltac:(apply base_init_run). reflexivity.
Qed.

End Construction.

(** ** Routing of video tracks *)

Section Routing.

Variables (self : session) (w : world).
Variables (cams : gset string) (reg : gmap string track).

Hypothesis Hcams : w !! expected_incoming_camera_types self = Some (OSet cams).
Hypothesis Hreg : w !! incoming_camera_tracks self = Some (ODict reg).

Lemma video_arrival_run t label rest :
  kind t = "video" ->
  split ":" (id t) = label :: rest ->
  rest <> [] ->
  WebRTCBaseStream._on_incoming_track self t w
  = (Ok (), if bool_decide (label ∈ cams)
            then <[incoming_camera_tracks self := ODict (<[label := t]> reg)]> w
            else w).
Proof.
  intros Hk Hs Hrest. unfold WebRTCBaseStream._on_incoming_track.
  rewrite bool_decide_eq_true_2 by exact Hk. rewrite Hs. cbv zeta.
  rewrite bool_decide_eq_false_2
    by (destruct rest; [congruence|simpl; lia]).
  step ltac:(reflexivity). step_attr. step ltac:(apply read_set_Ok, Hcams).
  destruct (bool_decide (label ∈ cams)); [|reflexivity].
  step_attr. apply dict_setitem_Ok, Hreg.
Qed.

Lemma get_incoming_video_track_missing label buffered :
  label ∉ dom reg ->
  WebRTCBaseStream.get_incoming_video_track self label buffered w
  = (Raise (AssertionError no_message), w).
Proof.
  intros H. unfold WebRTCBaseStream.get_incoming_video_track.
  step_attr. step ltac:(apply read_dict_Ok, Hreg).
  rewrite bool_decide_eq_false_2 by exact H. reflexivity.
Qed.

Lemma get_incoming_video_track_present label t buffered subs :
  reg !! label = Some t ->
  w !! media_relay self = Some (ORelay subs) ->
  WebRTCBaseStream.get_incoming_video_track self label buffered w
  = (Ok (RelayTrack t buffered),
     <[media_relay self := ORelay (subs ++ [RelayTrack t buffered])]> w).
Proof.
  intros H Hrelay. unfold WebRTCBaseStream.get_incoming_video_track.
  step_attr. step ltac:(apply read_dict_Ok, Hreg).
  rewrite bool_decide_eq_true_2 by (apply elem_of_dom; eauto).
  step ltac:(reflexivity). step_attr. step ltac:(apply read_dict_Ok, Hreg).
  rewrite H. step ltac:(reflexivity). step_attr.
  unfold relay_subscribe, read. rewrite bind_run, Hrelay. reflexivity.
Qed.

(** The registry only ever holds labels of the expected set. *)
Lemma registry_within_expected t r w' :
  dom reg ⊆ cams ->
  WebRTCBaseStream._on_incoming_track self t w = (r, w') ->
  exists reg',
    w' !! expected_incoming_camera_types self = Some (OSet cams) /\
    w' !! incoming_camera_tracks self = Some (ODict reg') /\
    dom reg' ⊆ cams.
Proof.
  intros Hinv. unfold WebRTCBaseStream._on_incoming_track.
  destruct (bool_decide (kind t = "video")).
  - cbv zeta. destruct (bool_decide (length (split ":" (id t)) < 2)).
    + intros [= _ <-]. eauto.
    + destruct (split ":" (id t)) as [|label rest].
      * intros [= _ <-]. eauto.
      * step ltac:(reflexivity). step_attr. step ltac:(apply read_set_Ok, Hcams).
        case_bool_decide as Hin.
        -- step_attr. rewrite (dict_setitem_Ok _ _ _ _ _ Hreg). intros [= _ <-].
           exists (<[label := t]> reg). split; [|split].
           ++ eapply lookup_insert_other; [exact Hreg|exact Hcams|discriminate].
           ++ apply list_lookup_insert_eq. eapply lookup_lt_Some, Hreg.
           ++ rewrite dom_insert_L. apply union_least; [|exact Hinv].
              apply singleton_subseteq_l, Hin.
        -- intros [= _ <-]. eauto.
  - destruct (bool_decide (kind t = "audio")).
    + rewrite bind_run. unfold attr_truth. rewrite bind_run. unfold lift.
      rewrite attr_expected_incoming_audio. intros [= _ <-]. eauto.
    + intros [= _ <-]. eauto.
Qed.

End Routing.

(** C3, as the code has it.  A video track whose label is expected is stored
    under that label whatever the registry held there before, so of several
    arrivals with one label the latest is the one kept and served: the getter
    returns a subscription to it, which the relay enters in its table. *)
Theorem latest_arrival_stored (self : session) (w : world) (cams : gset string)
    (reg : gmap string track) (subs : list relay_track) (t : track) (label : string)
    (rest : list string) (buffered : bool) :
  w !! expected_incoming_camera_types self = Some (OSet cams) ->
  w !! incoming_camera_tracks self = Some (ODict reg) ->
  w !! media_relay self = Some (ORelay subs) ->
  kind t = "video" ->
  split ":" (id t) = label :: rest ->
  rest <> [] ->
  label ∈ cams ->
  let w' := <[incoming_camera_tracks self := ODict (<[label := t]> reg)]> w in
  WebRTCBaseStream._on_incoming_track self t w = (Ok (), w') /\
  WebRTCBaseStream.get_incoming_video_track self label buffered w'
  = (Ok (RelayTrack t buffered),
     <[media_relay self := ORelay (subs ++ [RelayTrack t buffered])]> w').
Proof.
  intros Hcams Hreg Hrelay Hk Hs Hrest Hin w'. split.
  - rewrite (video_arrival_run _ _ _ _ Hcams Hreg _ _ _ Hk Hs Hrest).
    rewrite bool_decide_eq_true_2 by exact Hin. reflexivity.
  - apply get_incoming_video_track_present with (reg := <[label := t]> reg).
    + apply list_lookup_insert_eq. eapply lookup_lt_Some, Hreg.
    + apply lookup_insert_eq.
    + eapply lookup_insert_other; [exact Hreg|exact Hrelay|discriminate].
Qed.

(** C7. A video track whose label is not expected leaves the store, and so
    the registry, as it was, and the label stays unavailable: with a registry
    that holds expected labels only, [get_incoming_video_track] for it raises
    its assertion. *)
Theorem unexpected_label_dropped (self : session) (w : world) (cams : gset string)
    (reg : gmap string track) (t : track) (label : string) (rest : list string)
    (buffered : bool) :
  w !! expected_incoming_camera_types self = Some (OSet cams) ->
  w !! incoming_camera_tracks self = Some (ODict reg) ->
  dom reg ⊆ cams ->
  kind t = "video" ->
  split ":" (id t) = label :: rest ->
  rest <> [] ->
  label ∉ cams ->
  WebRTCBaseStream._on_incoming_track self t w = (Ok (), w) /\
  WebRTCBaseStream.get_incoming_video_track self label buffered w
  = (Raise (AssertionError no_message), w).
Proof.
  intros Hcams Hreg Hinv Hk Hs Hrest Hout. split.
  - rewrite (video_arrival_run _ _ _ _ Hcams Hreg _ _ _ Hk Hs Hrest).
    rewrite bool_decide_eq_false_2 by exact Hout. reflexivity.
  - eapply get_incoming_video_track_missing; [exact Hreg|].
    intros Hdom. apply Hout, Hinv, Hdom.
Qed.

(** ** Placeholders of the answer side *)

Lemma placeholders_app cs1 cs2 : placeholders (cs1 ++ cs2) = placeholders cs1 ++ placeholders cs2.
Proof. apply omap_app. Qed.

Lemma placeholders_addTrack ts : placeholders (AddTrack <$> ts) = [].
Proof. induction ts as [|t ts IH]; [reflexivity|exact IH]. Qed.

Lemma placeholders_consumer_calls n a :
  placeholders (consumer_calls n a)
  = replicate n ("video", "recvonly") ++ (if a then [("audio", "recvonly")] else []).
Proof.
  unfold consumer_calls. rewrite placeholders_app. f_equal.
  - induction n as [|n IH]; [reflexivity|]. simpl. f_equal. exact IH.
  - destruct a; reflexivity.
Qed.

(** C1, as the code has it.  Whatever the outcome of [start] on the answer
    side, the placeholders on the connection afterwards are those it had
    before, followed, when the connection had no remote description and the
    engine accepted the offer as one, by one video placeholder per label of
    the session's own expected set and one audio placeholder exactly when the
    session's own audio flag is set; the [video] and [audio] fields of the
    offer play no part, and neither does the success of the later steps.  When
    the guard fails or the engine refuses the offer, no placeholder is
    registered. *)
Theorem answer_placeholders_follow_configuration (eng : engine) (self : session)
    (o : StreamingOffer) (w : world) (cams : gset string) (vts ats : list track)
    (cs : list pc_call) (ld rd : option desc) :
  offer self = Some o ->
  w !! expected_incoming_camera_types self = Some (OSet cams) ->
  w !! outgoing_video_tracks self = Some (OList vts) ->
  w !! outgoing_audio_tracks self = Some (OList ats) ->
  w !! peer_connection self = Some (OPeer (Peer cs ld rd)) ->
  placeholders (peer_calls self (snd (WebRTCAnswerStream.start eng self w)))
  = placeholders cs
    ++ match rd, engine_setRemoteDescription eng
                   (Peer (cs ++ [SetRemoteDescription (offer_desc o)]) ld rd)
                   (offer_desc o) with
       | None, Ok _ =>
           replicate (size cams) ("video", "recvonly")
           ++ (if extected_incoming_audio self then [("audio", "recvonly")] else [])
       | _, _ => []
       end.
Proof.
  intros Hoffer Hcams Hvts Hats Hpeer.
  assert (Hdone : forall (r : result (option desc)) p extra,
             placeholders extra = [] ->
             calls p = cs ++ [SetRemoteDescription (offer_desc o)]
                       ++ consumer_calls (size cams) (extected_incoming_audio self)
                       ++ (AddTrack <$> vts) ++ (AddTrack <$> ats) ++ extra ->
             placeholders
               (peer_calls self (snd (r, <[peer_connection self := OPeer p]> w)))
             = placeholders cs
               ++ replicate (size cams) ("video", "recvonly")
               ++ (if extected_incoming_audio self then [("audio", "recvonly")] else [])).
  { intros r p extra Hextra Hcalls. unfold peer_calls. simpl snd.
    rewrite (peer_after_call _ _ _ _ Hpeer), Hcalls.
    rewrite !placeholders_app, placeholders_consumer_calls, !placeholders_addTrack, Hextra.
    simpl. rewrite !app_nil_r. reflexivity. }
  unfold WebRTCAnswerStream.start.
  step_attr. step ltac:(apply read_peer_Ok, Hpeer). simpl remoteDescription.
  destruct rd as [d|].
  { rewrite bind_run. simpl. unfold peer_calls. rewrite Hpeer, app_nil_r. reflexivity. }
  rewrite (bind_Ok _ _ w w ()) by reflexivity. step_attr.
  step ltac:(apply attr_offer_bound, Hoffer).
  rewrite bind_run, pc_setRemoteDescription_run with (cs := cs) (ld := ld) (rd := None)
    by exact Hpeer.
  destruct (engine_setRemoteDescription eng _ _) as [rd'|e].
  2:{ unfold peer_calls. simpl snd. rewrite (peer_after_call _ _ _ _ Hpeer).
      simpl calls. rewrite placeholders_app. reflexivity. }
  step ltac:(apply add_consumer_tracks_Ok;
             [ eapply cams_after_call; [exact Hpeer|exact Hcams]
             | eapply peer_after_call, Hpeer ]).
  rewrite list_insert_insert_eq.
  step ltac:(eapply add_producer_tracks_Ok;
             [ eapply list_after_call; [exact Hpeer|exact Hvts]
             | eapply list_after_call; [exact Hpeer|exact Hats]
             | eapply peer_after_call, Hpeer ]).
  rewrite list_insert_insert_eq. step_attr.
  rewrite bind_run, pc_createAnswer_run with (cs := _) (ld := ld) (rd := Some rd')
    by (eapply peer_after_call, Hpeer).
  rewrite list_insert_insert_eq.
  destruct (engine_createAnswer eng _) as [ans|e].
  2:{ apply (Hdone _ _ [CreateAnswer]); [reflexivity|].
      simpl calls. rewrite <- !app_assoc. reflexivity. }
  step_attr.
  rewrite bind_run, pc_setLocalDescription_run with (cs := _) (ld := ld) (rd := Some rd')
    by (eapply peer_after_call, Hpeer).
  destruct (engine_setLocalDescription eng _ ans) as [ld'|e];
    rewrite list_insert_insert_eq.
  2:{ apply (Hdone _ _ [CreateAnswer; SetLocalDescription ans]); [reflexivity|].
      simpl calls. rewrite <- !app_assoc. reflexivity. }
  step_attr. step ltac:(eapply read_peer_Ok, peer_after_call, Hpeer).
  apply (Hdone _ _ [CreateAnswer; SetLocalDescription ans]); [reflexivity|].
  simpl calls. rewrite <- !app_assoc. reflexivity.
Qed.

(** ** Call order of the offer side *)

(** C5, as the code has it.  For a session built by [offer], the outgoing
    tracks are attached first, when the session is constructed; a completed
    [start] has then registered the placeholders of the expected incoming
    kinds, and only after both created the offer and set the local
    description. *)
Theorem offer_side_call_order (eng : engine) (builder_ref : loc) (b : builder)
    (w w1 w2 : world) (cams : gset string) (vts ats : list track)
    (provider : ConnectionProvider) (s : session) (r : option desc) :
  w !! builder_ref = Some (OBuilder b) ->
  w !! consumed_camera_tracks b = Some (OSet cams) ->
  w !! video_producing_tracks b = Some (OList vts) ->
  w !! audio_producing_tracks b = Some (OList ats) ->
  WebRTCStreamBuilder.offer builder_ref provider w = (Ok s, w1) ->
  WebRTCOfferStream.start eng s w1 = (Ok r, w2) ->
  exists off ans,
    peer_calls s w2
    = [On "connectionstatechange"; On "datachannel"; On "track"]
      ++ (AddTrack <$> vts) ++ (AddTrack <$> ats)
      ++ consumer_calls (size cams) (consume_audio b)
      ++ [CreateOffer; SetLocalDescription off; SetRemoteDescription ans].
Proof.
  intros Hself Hcams Hvts Hats Hoffer Hstart.
  rewrite (builder_offer_run _ _ _ _ _ Hself Hvts Hats) in Hoffer.
  injection Hoffer as <- <-.
  assert (Hpeer : (w ++ session_objects ((AddTrack <$> vts) ++ (AddTrack <$> ats)))
                  !! peer_connection (session_of b w (Some provider) None)
                  = Some (OPeer (Peer ([On "connectionstatechange"; On "datachannel";
                                        On "track"]
                                       ++ (AddTrack <$> vts) ++ (AddTrack <$> ats))
                                      None None)))
    by (apply list_lookup_middle; reflexivity).
  eapply offer_start_Ok in Hstart as (off & ld' & ans & rd' & _ & _ & ->);
    [ | apply lookup_app_l_Some, Hcams | exact Hpeer | reflexivity ].
  exists off, ans. unfold peer_calls. rewrite (peer_after_call _ _ _ _ Hpeer).
  simpl calls. rewrite <- !app_assoc. reflexivity.
Qed.

(** ** The builder after a session was built *)

Section BuilderCalls.

Variables (self : loc) (b : builder) (w : world).
Hypothesis Hself : w !! self = Some (OBuilder b).

Lemma add_audio_consumer_run :
  WebRTCStreamBuilder.add_audio_consumer self w
  = if consume_audio b
    then (Raise (Exception "Only one audio consumer allowed"), w)
    else (Ok (), <[self := OBuilder (Builder (consumed_camera_tracks b) true
                                       (video_producing_tracks b)
                                       (audio_producing_tracks b) (data_channel b)
                                       (message_handler b)
                                       (builder_peer_connection b))]> w).
Proof.
  unfold WebRTCStreamBuilder.add_audio_consumer.
  step ltac:(apply read_builder_Ok, Hself).
  destruct (consume_audio b); [reflexivity|].
  step ltac:(reflexivity). step ltac:(apply read_builder_Ok, Hself). reflexivity.
Qed.

Lemma add_video_producer_run vts t :
  w !! video_producing_tracks b = Some (OList vts) ->
  WebRTCStreamBuilder.add_video_producer self t w
  = if bool_decide (kind t = "video")
    then (Ok (), <[video_producing_tracks b := OList (vts ++ [t])]> w)
    else (Raise (AssertionError no_message), w).
Proof.
  intros Hv. unfold WebRTCStreamBuilder.add_video_producer.
  destruct (bool_decide (kind t = "video")); [|reflexivity].
  step ltac:(reflexivity). step ltac:(apply read_builder_Ok, Hself).
  apply list_append_Ok, Hv.
Qed.

Lemma add_audio_producer_run ats t :
  w !! audio_producing_tracks b = Some (OList ats) ->
  WebRTCStreamBuilder.add_audio_producer self t w
  = if bool_decide (kind t = "audio")
    then (Ok (), <[audio_producing_tracks b := OList (ats ++ [t])]> w)
    else (Raise (AssertionError no_message), w).
Proof.
  intros Ha. unfold WebRTCStreamBuilder.add_audio_producer.
  destruct (bool_decide (kind t = "audio")); [|reflexivity].
  step ltac:(reflexivity). step ltac:(apply read_builder_Ok, Hself).
  apply list_append_Ok, Ha.
Qed.

End BuilderCalls.

(** C6, as the code has it.  A session built by [offer] or [answer] copies the
    builder's audio flag, which no later call on the builder changes for the
    session, and shares the builder's set of labels and its two track lists:
    a label or a track added to the builder after the session was built is in
    the session's expected set or outgoing list. *)
Theorem session_shares_builder_containers (builder_ref : loc) (b : builder)
    (w w1 : world) (cams : gset string) (vts ats : list track)
    (role : ConnectionProvider + StreamingOffer) (s : session) :
  w !! builder_ref = Some (OBuilder b) ->
  w !! consumed_camera_tracks b = Some (OSet cams) ->
  w !! video_producing_tracks b = Some (OList vts) ->
  w !! audio_producing_tracks b = Some (OList ats) ->
  match role with
  | inl provider => WebRTCStreamBuilder.offer builder_ref provider w
  | inr o => WebRTCStreamBuilder.answer builder_ref o w
  end = (Ok s, w1) ->
  (forall w' : world,
     attr_bool s "extected_incoming_audio" w' = (Ok (consume_audio b), w')) /\
  (forall (c : builder_call) (w2 : world),
     run_builder_call builder_ref c w1 = (Ok (), w2) ->
     match c with
     | AddVideoConsumer camera_type => expected_labels s w2 = {[camera_type]} ∪ cams
     | AddAudioConsumer =>
         (exists b2, w2 !! builder_ref = Some (OBuilder b2) /\ consume_audio b2 = true) /\
         extected_incoming_audio s = false
     | AddVideoProducer t =>
         read_list (outgoing_video_tracks s) w2 = (Ok (vts ++ [t]), w2)
     | AddAudioProducer t =>
         read_list (outgoing_audio_tracks s) w2 = (Ok (ats ++ [t]), w2)
     end).
Proof.
  intros Hself Hcams Hvts Hats Hbuild.
  assert (exists provider o extra,
            s = session_of b w provider o /\ w1 = w ++ session_objects extra)
    as (provider & o & extra & -> & ->).
  { destruct role as [provider|o].
    - rewrite (builder_offer_run _ _ _ _ _ Hself Hvts Hats) in Hbuild.
      injection Hbuild as <- <-. eauto.
    - rewrite (builder_answer_run _ _ _ Hself) in Hbuild.
      injection Hbuild as <- <-. eauto. }
  set (w1 := w ++ session_objects extra).
  assert (Hself1 : w1 !! builder_ref = Some (OBuilder b)) by apply lookup_app_l_Some, Hself.
  assert (Hcams1 : w1 !! consumed_camera_tracks b = Some (OSet cams))
    by apply lookup_app_l_Some, Hcams.
  assert (Hvts1 : w1 !! video_producing_tracks b = Some (OList vts))
    by apply lookup_app_l_Some, Hvts.
  assert (Hats1 : w1 !! audio_producing_tracks b = Some (OList ats))
    by apply lookup_app_l_Some, Hats.
  split; [reflexivity|].
  intros [camera_type| |t|t] w2; simpl.
  - destruct (decide (camera_type ∈ ["driver"; "wideRoad"; "road"])) as [Hv|Hv].
    + rewrite (add_video_consumer_valid _ _ _ Hself1 _ _ Hcams1 Hv). intros [= <-].
      unfold expected_labels. simpl expected_incoming_camera_types.
      rewrite list_lookup_insert_eq by (eapply lookup_lt_Some, Hcams1). reflexivity.
    + rewrite (add_video_consumer_invalid _ _ _ Hv). discriminate.
  - rewrite (add_audio_consumer_run _ _ _ Hself1).
    destruct (consume_audio b) eqn:Hflag; [discriminate|]. intros [= <-].
    split; [|reflexivity]. eexists. split.
    + apply list_lookup_insert_eq. eapply lookup_lt_Some, Hself1.
    + reflexivity.
  - rewrite (add_video_producer_run _ _ _ Hself1 _ _ Hvts1).
    destruct (bool_decide (kind t = "video")); [|discriminate]. intros [= <-].
    apply read_list_Ok, list_lookup_insert_eq. eapply lookup_lt_Some, Hvts1.
  - rewrite (add_audio_producer_run _ _ _ Hself1 _ _ Hats1).
    destruct (bool_decide (kind t = "audio")); [|discriminate]. intros [= <-].
    apply read_list_Ok, list_lookup_insert_eq. eapply lookup_lt_Some, Hats1.
Qed.

(** ** Starting twice *)

(** The answer side refuses a second [start] and leaves the store alone. *)
Lemma answer_start_twice (eng : engine) (self : session) (o : StreamingOffer)
    (w w' : world) (cams : gset string) (vts ats : list track) (p : peer)
    (r : option desc) :
  offer self = Some o ->
  w !! expected_incoming_camera_types self = Some (OSet cams) ->
  w !! outgoing_video_tracks self = Some (OList vts) ->
  w !! outgoing_audio_tracks self = Some (OList ats) ->
  w !! peer_connection self = Some (OPeer p) ->
  WebRTCAnswerStream.start eng self w = (Ok r, w') ->
  WebRTCAnswerStream.start eng self w'
  = (Raise (AssertionError "Connection already established"), w').
Proof.
  intros Hoffer Hcams Hvts Hats Hpeer Hstart. destruct p as [cs ld rd].
  destruct (answer_start_Ok _ _ _ _ _ _ _ Hcams Hpeer _ _ Hvts Hats _ _ _ Hoffer Hstart)
    as (_ & rd' & ans & ld' & _ & ->).
  eapply answer_start_guard; [eapply peer_after_call, Hpeer|reflexivity].
Qed.

(** C2 fails on the offer side, whose [start] has no guard.  A session that
    expects one camera is started twice with an accepting engine: the second
    [start] returns the remote description like the first, and the connection
    has by then received a second placeholder, a second offer and a second
    remote answer. *)
Theorem offer_start_twice_runs_again :
  fst ((b ← WebRTCStreamBuilder.__init__;
        WebRTCStreamBuilder.add_video_consumer b "driver";;
        s ← WebRTCStreamBuilder.offer b answering_provider;
        first ← WebRTCOfferStream.start accepting_engine s;
        second ← WebRTCOfferStream.start accepting_engine s;
        calls_made ← observe (peer_calls s);
        ret (first, second, calls_made)) [])
  = Ok (Some (Desc "remote answer" "answer"),
        Some (Desc "remote answer" "answer"),
        [ On "connectionstatechange"; On "datachannel"; On "track";
          AddTransceiver "video" "recvonly"; CreateOffer;
          SetLocalDescription (Desc "local offer" "offer");
          SetRemoteDescription (Desc "remote answer" "answer");
          AddTransceiver "video" "recvonly"; CreateOffer;
          SetLocalDescription (Desc "local offer" "offer");
          SetRemoteDescription (Desc "remote answer" "answer") ]).
Proof. vm_compute. reflexivity. Qed.

(** ** Completion of [start] *)

Ltac engine_accepts H :=
  match goal with
  | |- context [engine_createOffer ?eng ?p] =>
      destruct (proj1 H p) as [? ->]
  | |- context [engine_createAnswer ?eng ?p] =>
      destruct (proj1 (proj2 H) p) as [? ->]
  | |- context [engine_setLocalDescription ?eng ?p ?d] =>
      destruct (proj1 (proj2 (proj2 H)) p d) as [? ->]
  | |- context [engine_setRemoteDescription ?eng ?p ?d] =>
      destruct (proj2 (proj2 (proj2 H)) p d) as [? ->]
  end.

(** With an engine that accepts and a signaling function that answers, the
    offer side completes. *)
Lemma offer_start_completes (eng : engine) (self : session) (provider : ConnectionProvider)
    (w : world) (cams : gset string) (p : peer) :
  accepts eng ->
  (forall so, exists d, provider so = Ok d) ->
  session_provider self = Some provider ->
  w !! expected_incoming_camera_types self = Some (OSet cams) ->
  w !! peer_connection self = Some (OPeer p) ->
  exists r w', WebRTCOfferStream.start eng self w = (Ok r, w').
Proof.
  intros Heng Hanswers Hprov Hcams Hpeer. destruct p as [cs ld rd].
  destruct (WebRTCOfferStream.start eng self w) as [[r|e] w'] eqn:E; [eauto|exfalso].
  revert E. unfold WebRTCOfferStream.start.
  step ltac:(apply add_consumer_tracks_Ok; [exact Hcams|exact Hpeer]).
  step_attr. rewrite bind_run, pc_createOffer_run with (cs := _) (ld := ld) (rd := rd)
    by (eapply peer_after_call, Hpeer).
  engine_accepts Heng. rewrite list_insert_insert_eq. step_attr.
  rewrite bind_run, pc_setLocalDescription_run with (cs := _) (ld := ld) (rd := rd)
    by (eapply peer_after_call, Hpeer).
  engine_accepts Heng. rewrite list_insert_insert_eq. step_attr.
  step ltac:(eapply read_peer_Ok, peer_after_call, Hpeer). simpl localDescription.
  rewrite bind_run. simpl. step_attr.
  step ltac:(eapply read_set_Ok, cams_after_call; [exact Hpeer|exact Hcams]).
  step_attr. step ltac:(apply attr_session_provider, Hprov).
  rewrite bind_run. unfold lift.
  match goal with |- context [provider ?so] => destruct (Hanswers so) as [ans ->] end.
  step_attr.
  rewrite bind_run. erewrite pc_setRemoteDescription_run
    by (eapply peer_after_call, Hpeer).
  engine_accepts Heng. rewrite list_insert_insert_eq. step_attr.
  step ltac:(eapply read_peer_Ok, peer_after_call, Hpeer).
  discriminate.
Qed.

(** With an engine that accepts, the answer side completes when its
    connection has no remote description yet. *)
Lemma answer_start_completes (eng : engine) (self : session) (o : StreamingOffer)
    (w : world) (cams : gset string) (vts ats : list track)
    (cs : list pc_call) (ld : option desc) :
  accepts eng ->
  offer self = Some o ->
  w !! expected_incoming_camera_types self = Some (OSet cams) ->
  w !! outgoing_video_tracks self = Some (OList vts) ->
  w !! outgoing_audio_tracks self = Some (OList ats) ->
  w !! peer_connection self = Some (OPeer (Peer cs ld None)) ->
  exists r w', WebRTCAnswerStream.start eng self w = (Ok r, w').
Proof.
  intros Heng Hoffer Hcams Hvts Hats Hpeer.
  destruct (WebRTCAnswerStream.start eng self w) as [[r|e] w'] eqn:E; [eauto|exfalso].
  revert E. unfold WebRTCAnswerStream.start.
  step_attr. step ltac:(apply read_peer_Ok, Hpeer). simpl remoteDescription.
  rewrite bind_run. simpl. step_attr.
  step ltac:(apply attr_offer_bound, Hoffer).
  rewrite bind_run, pc_setRemoteDescription_run with (cs := cs) (ld := ld) (rd := None)
    by exact Hpeer.
  engine_accepts Heng.
  step ltac:(apply add_consumer_tracks_Ok;
             [ eapply cams_after_call; [exact Hpeer|exact Hcams]
             | eapply peer_after_call, Hpeer ]).
  rewrite list_insert_insert_eq.
  step ltac:(eapply add_producer_tracks_Ok;
             [ eapply list_after_call; [exact Hpeer|exact Hvts]
             | eapply list_after_call; [exact Hpeer|exact Hats]
             | eapply peer_after_call, Hpeer ]).
  rewrite list_insert_insert_eq. step_attr.
  rewrite bind_run. erewrite pc_createAnswer_run
    by (eapply peer_after_call, Hpeer).
  engine_accepts Heng. rewrite list_insert_insert_eq. step_attr.
  rewrite bind_run. erewrite pc_setLocalDescription_run
    by (eapply peer_after_call, Hpeer).
  engine_accepts Heng. rewrite list_insert_insert_eq. step_attr.
  step ltac:(eapply read_peer_Ok, peer_after_call, Hpeer).
  discriminate.
Qed.

(** A session that was just built has an empty registry. *)
Lemma fresh_registry (b : builder) (w : world) provider o extra :
  registry (session_of b w provider o) (w ++ session_objects extra) = ∅.
Proof.
  unfold registry, session_of, session_objects. simpl incoming_camera_tracks.
  rewrite lookup_app_r by lia.
  replace (S (S (length w)) - length w) with 2 by lia. reflexivity.
Qed.

(** ** Scenarios *)

(** C1 as stated fails: an answer session built from an empty builder and an
    offer that declares one camera and audio registers no placeholder at all,
    where the claim expects one for video and one for audio. *)
Lemma answer_ignores_offer_declarations :
  fst ((b ← WebRTCStreamBuilder.__init__;
        s ← WebRTCStreamBuilder.answer b sample_offer;
        WebRTCAnswerStream.start accepting_engine s;;
        observe (fun w => placeholders (peer_calls s w))) [])
  = Ok [] /\
  video sample_offer = ["driver"] /\ audio sample_offer = true.
Proof. vm_compute. repeat split; reflexivity. Qed.

(** C3 as stated fails: of two tracks that arrive with the label of an
    expected camera, the registry holds the second, not the first. *)
Lemma second_arrival_replaces_first :
  fst ((b ← WebRTCStreamBuilder.__init__;
        WebRTCStreamBuilder.add_video_consumer b "road";;
        s ← WebRTCStreamBuilder.offer b answering_provider;
        WebRTCBaseStream._on_incoming_track s (Track "video" "road:first");;
        WebRTCBaseStream._on_incoming_track s (Track "video" "road:second");;
        observe (fun w => registry s w !! "road")) [])
  = Ok (Some (Track "video" "road:second")).
Proof. vm_compute. reflexivity. Qed.

(** C5 as stated fails: the offer side attaches its outgoing track before it
    registers the placeholder of the camera it expects. *)
Lemma offer_attaches_tracks_before_placeholders :
  fst ((b ← WebRTCStreamBuilder.__init__;
        WebRTCStreamBuilder.add_video_consumer b "road";;
        WebRTCStreamBuilder.add_video_producer b sample_track;;
        s ← WebRTCStreamBuilder.offer b answering_provider;
        WebRTCOfferStream.start accepting_engine s;;
        observe (peer_calls s)) [])
  = Ok [ On "connectionstatechange"; On "datachannel"; On "track";
         AddTrack sample_track;
         AddTransceiver "video" "recvonly";
         CreateOffer;
         SetLocalDescription (Desc "local offer" "offer");
         SetRemoteDescription (Desc "remote answer" "answer") ].
Proof. vm_compute. reflexivity. Qed.

(** C6 as stated fails: a label added to the builder after the session was
    built is in the session's expected set, and [start] then registers a
    placeholder for it. *)
Lemma builder_mutation_reaches_session :
  fst ((b ← WebRTCStreamBuilder.__init__;
        WebRTCStreamBuilder.add_video_consumer b "driver";;
        s ← WebRTCStreamBuilder.offer b answering_provider;
        before ← observe (expected_labels s);
        WebRTCStreamBuilder.add_video_consumer b "road";;
        after ← observe (expected_labels s);
        WebRTCOfferStream.start accepting_engine s;;
        registered ← observe (fun w => placeholders (peer_calls s w));
        ret (bool_decide ("road" ∈ before), bool_decide ("road" ∈ after),
             size before, size after, registered)) [])
  = Ok (false, true, 1, 2, [("video", "recvonly"); ("video", "recvonly")]).
Proof. vm_compute. reflexivity. Qed.

(** ** Instances of the theorems *)

Ltac by_evaluation :=
  match goal with
  | |- ?P => refine (bool_decide_unpack P _); vm_compute; exact I
  end.

Lemma sample_road_expected : "road" ∈ ({["road"; "driver"]} : gset string).
Proof. by_evaluation. Defined.

Lemma sample_wideRoad_unexpected : "wideRoad" ∉ ({["road"; "driver"]} : gset string).
Proof. by_evaluation. Defined.

Lemma answer_placeholders_follow_configuration_witness :
  fst (WebRTCAnswerStream.start strict_engine sample_answer_session sample_answer_world)
  = Raise (EngineError "no matching media section") /\
  placeholders (peer_calls sample_answer_session
                  (snd (WebRTCAnswerStream.start strict_engine sample_answer_session
                          sample_answer_world)))
  = placeholders [On "connectionstatechange"; On "datachannel"; On "track"]
    ++ replicate (size ({["road"; "driver"]} : gset string)) ("video", "recvonly")
    ++ [("audio", "recvonly")].
Proof.
  split; [vm_compute; reflexivity|].
  apply (answer_placeholders_follow_configuration strict_engine sample_answer_session
           sample_offer sample_answer_world {["road"; "driver"]} [sample_track] []
           [On "connectionstatechange"; On "datachannel"; On "track"] None None);
    vm_compute; reflexivity.
Defined.

Lemma latest_arrival_stored_witness :
  WebRTCBaseStream._on_incoming_track sample_session (Track "video" "road:abc") sample_world
  = (Ok (), <[6 := ODict (<["road" := Track "video" "road:abc"]> ∅)]> sample_world) /\
  WebRTCBaseStream.get_incoming_video_track sample_session "road" false
    (<[6 := ODict (<["road" := Track "video" "road:abc"]> ∅)]> sample_world)
  = (Ok (RelayTrack (Track "video" "road:abc") false),
     <[5 := ORelay ([] ++ [RelayTrack (Track "video" "road:abc") false])]>
       (<[6 := ODict (<["road" := Track "video" "road:abc"]> ∅)]> sample_world)).
Proof.
  apply (latest_arrival_stored sample_session sample_world {["road"; "driver"]} ∅ []
           (Track "video" "road:abc") "road" ["abc"] false);
    first [reflexivity | discriminate | exact sample_road_expected].
Defined.

Lemma audio_arrival_raises_witness :
  WebRTCBaseStream._on_incoming_track sample_answer_session (Track "audio" "mic")
    sample_answer_world
  = (Raise (AttributeError "expected_incoming_audio"), sample_answer_world).
Proof. apply audio_arrival_raises. reflexivity. Defined.

Lemma offer_side_call_order_witness :
  exists off ans,
    peer_calls sample_session
      (snd (WebRTCOfferStream.start accepting_engine sample_session sample_world))
    = [On "connectionstatechange"; On "datachannel"; On "track"]
      ++ (AddTrack <$> [sample_track]) ++ (AddTrack <$> [])
      ++ consumer_calls (size ({["road"; "driver"]} : gset string)) false
      ++ [CreateOffer; SetLocalDescription off; SetRemoteDescription ans].
Proof.
  apply (offer_side_call_order accepting_engine 3 sample_builder sample_builder_world
           sample_world _ {["road"; "driver"]} [sample_track] [] answering_provider
           sample_session (Some (Desc "remote answer" "answer")));
    vm_compute; reflexivity.
Defined.

Lemma session_shares_builder_containers_witness :
  expected_labels sample_session
    (snd (run_builder_call 3 (AddVideoConsumer "wideRoad") sample_world))
  = {["wideRoad"]} ∪ {["road"; "driver"]}.
Proof.
  apply (proj2 (session_shares_builder_containers 3 sample_builder sample_builder_world
                  sample_world {["road"; "driver"]} [sample_track] []
                  (inl answering_provider) sample_session
                  eq_refl eq_refl eq_refl eq_refl eq_refl)
               (AddVideoConsumer "wideRoad")).
  vm_compute. reflexivity.
Defined.

Lemma unexpected_label_dropped_witness :
  WebRTCBaseStream._on_incoming_track sample_session (Track "video" "wideRoad:xyz")
    sample_world
  = (Ok (), sample_world) /\
  WebRTCBaseStream.get_incoming_video_track sample_session "wideRoad" false sample_world
  = (Raise (AssertionError no_message), sample_world).
Proof.
  apply (unexpected_label_dropped sample_session sample_world {["road"; "driver"]} ∅
           (Track "video" "wideRoad:xyz") "wideRoad" ["xyz"] false);
    first [reflexivity | discriminate | exact sample_wideRoad_unexpected | by_evaluation].
Defined.

Lemma malformed_identifier_ignored_witness :
  WebRTCBaseStream._on_incoming_track sample_session (Track "video" "onlylabel") sample_world
  = (Ok (), sample_world).
Proof. apply malformed_identifier_ignored; [reflexivity | vm_compute; lia]. Defined.

Lemma add_video_consumer_idempotent_witness :
  ("wideRoad" ∉ ["driver"; "wideRoad"; "road"] ->
     WebRTCStreamBuilder.add_video_consumer 3 "wideRoad" sample_builder_world
     = (Raise (AssertionError no_message), sample_builder_world)) /\
  ("wideRoad" ∈ ["driver"; "wideRoad"; "road"] ->
     forall n,
       for_ (replicate (S n) ())
            (fun _ => WebRTCStreamBuilder.add_video_consumer 3 "wideRoad")
            sample_builder_world
       = (Ok (), <[0 := OSet ({["wideRoad"]} ∪ {["road"; "driver"]})]> sample_builder_world)) /\
  size ({["wideRoad"]} ∪ {["road"; "driver"]} : gset string)
  <= S (size ({["road"; "driver"]} : gset string)).
Proof.
  apply (add_video_consumer_idempotent 3 sample_builder sample_builder_world
           {["road"; "driver"]} "wideRoad"); reflexivity.
Defined.

Lemma builder_failure_mutates_nothing_witness :
  snd (run_builder_call 3 (AddVideoProducer (Track "audio" "mic")) sample_builder_world)
  = sample_builder_world.
Proof.
  apply (builder_failure_mutates_nothing 3 (AddVideoProducer (Track "audio" "mic"))
           sample_builder_world _ (AssertionError no_message)).
  vm_compute. reflexivity.
Defined.

(** * Further properties of the builder *)

(** X1. [add_audio_consumer] succeeds once: on a builder that has no audio
    consumer it sets the flag and changes nothing else, and from then on
    every call raises "Only one audio consumer allowed" and leaves the store
    as it is. *)
Theorem audio_consumer_at_most_once (self : loc) (b : builder) (w : world) :
  w !! self = Some (OBuilder b) ->
  consume_audio b = false ->
  let w1 := <[self := OBuilder (Builder (consumed_camera_tracks b) true
                                  (video_producing_tracks b) (audio_producing_tracks b)
                                  (data_channel b) (message_handler b)
                                  (builder_peer_connection b))]> w in
  WebRTCStreamBuilder.add_audio_consumer self w = (Ok (), w1) /\
  forall n,
    for_ (replicate (S n) ()) (fun _ => WebRTCStreamBuilder.add_audio_consumer self) w1
    = (Raise (Exception "Only one audio consumer allowed"), w1).
Proof.
  intros Hself Hflag w1. split.
  - rewrite (add_audio_consumer_run _ _ _ Hself), Hflag. reflexivity.
  - intros n. simpl. rewrite bind_run.
    erewrite add_audio_consumer_run
      by (apply list_lookup_insert_eq; eapply lookup_lt_Some, Hself).
    reflexivity.
Qed.

Lemma add_video_consumer_all_run self b :
  forall (labels : list string) (w : world) (cams : gset string),
    w !! self = Some (OBuilder b) ->
    w !! consumed_camera_tracks b = Some (OSet cams) ->
    Forall (fun x => x ∈ ["driver"; "wideRoad"; "road"]) labels ->
    for_ labels (WebRTCStreamBuilder.add_video_consumer self) w
    = (Ok (), <[consumed_camera_tracks b := OSet (list_to_set labels ∪ cams)]> w).
Proof.
  induction labels as [|x labels IH]; intros w cams Hself Hcams Hvalid; simpl.
  - rewrite union_empty_l_L, (list_insert_id _ _ _ Hcams). reflexivity.
  - inversion Hvalid as [|? ? Hx Hrest]; subst.
    rewrite bind_run, (add_video_consumer_valid _ _ _ Hself _ _ Hcams Hx).
    rewrite (IH _ ({[x]} ∪ cams)).
    + rewrite list_insert_insert_eq. do 3 f_equal.
      rewrite (union_comm_L {[x]} (list_to_set labels)), union_assoc_L. reflexivity.
    + eapply lookup_insert_other; [exact Hcams|exact Hself|discriminate].
    + apply list_lookup_insert_eq. eapply lookup_lt_Some, Hcams.
    + exact Hrest.
Qed.

(** X2. Adding a list of camera types of the closed list, one call each,
    leaves the expected set with exactly the labels it had and those of the
    list: repetitions in the list count once and the order plays no part. *)
Theorem video_consumers_collect_labels (self : loc) (b : builder) (w : world)
    (cams : gset string) (labels : list string) :
  w !! self = Some (OBuilder b) ->
  w !! consumed_camera_tracks b = Some (OSet cams) ->
  Forall (fun x => x ∈ ["driver"; "wideRoad"; "road"]) labels ->
  exists w',
    for_ labels (WebRTCStreamBuilder.add_video_consumer self) w = (Ok (), w') /\
    w' !! consumed_camera_tracks b = Some (OSet (list_to_set labels ∪ cams)) /\
    (forall x, x ∈ (list_to_set labels ∪ cams : gset string) <-> x ∈ labels \/ x ∈ cams).
Proof.
  intros Hself Hcams Hvalid. eexists. split; [|split].
  - apply (add_video_consumer_all_run _ _ _ _ _ Hself Hcams Hvalid).
  - apply list_lookup_insert_eq. eapply lookup_lt_Some, Hcams.
  - intros x. rewrite elem_of_union, elem_of_list_to_set. reflexivity.
Qed.

Lemma add_video_producer_all_run self b :
  forall (ts : list track) (w : world) (vts : list track),
    w !! self = Some (OBuilder b) ->
    w !! video_producing_tracks b = Some (OList vts) ->
    Forall (fun t => kind t = "video") ts ->
    for_ ts (WebRTCStreamBuilder.add_video_producer self) w
    = (Ok (), <[video_producing_tracks b := OList (vts ++ ts)]> w).
Proof.
  induction ts as [|t ts IH]; intros w vts Hself Hvts Hkinds; simpl.
  - rewrite app_nil_r, (list_insert_id _ _ _ Hvts). reflexivity.
  - inversion Hkinds as [|? ? Hk Hrest]; subst.
    rewrite bind_run, (add_video_producer_run _ _ _ Hself _ _ Hvts).
    rewrite bool_decide_eq_true_2 by exact Hk.
    rewrite (IH _ (vts ++ [t])).
    + rewrite list_insert_insert_eq, <- app_assoc. reflexivity.
    + eapply lookup_insert_other; [exact Hvts|exact Hself|discriminate].
    + apply list_lookup_insert_eq. eapply lookup_lt_Some, Hvts.
    + exact Hrest.
Qed.

(** X3. Video producers are kept in the order they are added, after those
    already there; a track of another kind stops the sequence with an
    assertion error, the tracks before it being added and it and the later
    ones not. *)
Theorem video_producers_kept_in_order (self : loc) (b : builder) (w : world)
    (vts ts later : list track) (bad : track) :
  w !! self = Some (OBuilder b) ->
  w !! video_producing_tracks b = Some (OList vts) ->
  Forall (fun t => kind t = "video") ts ->
  kind bad <> "video" ->
  for_ ts (WebRTCStreamBuilder.add_video_producer self) w
  = (Ok (), <[video_producing_tracks b := OList (vts ++ ts)]> w) /\
  for_ (ts ++ bad :: later) (WebRTCStreamBuilder.add_video_producer self) w
  = (Raise (AssertionError no_message),
     <[video_producing_tracks b := OList (vts ++ ts)]> w).
Proof.
  intros Hself Hvts Hkinds Hbad. split.
  - apply (add_video_producer_all_run _ _ _ _ _ Hself Hvts Hkinds).
  - revert w vts Hself Hvts. induction Hkinds as [|t ts Hk Hrest IH]; intros w vts Hself Hvts.
    + simpl. rewrite bind_run, (add_video_producer_run _ _ _ Hself _ _ Hvts).
      rewrite bool_decide_eq_false_2 by exact Hbad.
      rewrite app_nil_r, (list_insert_id _ _ _ Hvts). reflexivity.
    + simpl. rewrite bind_run, (add_video_producer_run _ _ _ Hself _ _ Hvts).
      rewrite bool_decide_eq_true_2 by exact Hk.
      rewrite (IH _ (vts ++ [t])).
      * rewrite list_insert_insert_eq, <- app_assoc. reflexivity.
      * eapply lookup_insert_other; [exact Hvts|exact Hself|discriminate].
      * apply list_lookup_insert_eq. eapply lookup_lt_Some, Hvts.
Qed.

(** ** What a builder can hold *)

Lemma builder_init_run (w : world) :
  WebRTCStreamBuilder.__init__ w
  = (Ok (S (S (S (length w)))),
     w ++ [OSet ∅; OList []; OList [];
           OBuilder (Builder (length w) false (S (length w)) (S (S (length w)))
                             None None None)]).
Proof.
  unfold WebRTCStreamBuilder.__init__.
  do 3 step ltac:(reflexivity). unfold alloc.
  rewrite !length_app. simpl length.
  replace (length w + 1) with (S (length w)) by lia.
  replace (S (length w) + 1) with (S (S (length w))) by lia.
  replace (S (S (length w)) + 1) with (S (S (S (length w)))) by lia.
  rewrite <- !app_assoc. reflexivity.
Qed.

Lemma builder_ok_init (w0 w : world) (self : loc) :
  WebRTCStreamBuilder.__init__ w0 = (Ok self, w) -> builder_ok self w.
Proof.
  rewrite builder_init_run. intros [= <- <-].
  exists (Builder (length w0) false (S (length w0)) (S (S (length w0))) None None None),
         ∅, [], [].
  simpl. repeat split.
  - rewrite lookup_app_r by lia. replace (S (S (S (length w0))) - length w0) with 3 by lia.
    reflexivity.
  - apply list_lookup_middle. reflexivity.
  - rewrite lookup_app_r by lia. replace (S (length w0) - length w0) with 1 by lia.
    reflexivity.
  - rewrite lookup_app_r by lia. replace (S (S (length w0)) - length w0) with 2 by lia.
    reflexivity.
  - lia.
  - intros x Hx. exfalso. exact (not_elem_of_empty x Hx).
  - constructor.
  - constructor.
Qed.

Lemma builder_ok_step (self : loc) (c : builder_call) (w : world) :
  builder_ok self w -> builder_ok self (snd (run_builder_call self c w)).
Proof.
  intros (b & cams & vts & ats & Hself & Hcams & Hvts & Hats & Hne & Hlabels & Hv & Ha).
  destruct c as [camera_type| |t|t]; simpl.
  - destruct (decide (camera_type ∈ ["driver"; "wideRoad"; "road"])) as [Hin|Hout].
    + rewrite (add_video_consumer_valid _ _ _ Hself _ _ Hcams Hin). simpl.
      exists b, ({[camera_type]} ∪ cams), vts, ats. repeat split; try assumption.
      * eapply lookup_insert_other; [exact Hcams|exact Hself|discriminate].
      * apply list_lookup_insert_eq. eapply lookup_lt_Some, Hcams.
      * eapply lookup_insert_other; [exact Hcams|exact Hvts|discriminate].
      * eapply lookup_insert_other; [exact Hcams|exact Hats|discriminate].
      * intros x [->%elem_of_singleton|Hx]%elem_of_union; [exact Hin|exact (Hlabels x Hx)].
    + rewrite (add_video_consumer_invalid _ _ _ Hout). simpl.
      exists b, cams, vts, ats. repeat split; assumption.
  - rewrite (add_audio_consumer_run _ _ _ Hself). destruct (consume_audio b); simpl.
    + exists b, cams, vts, ats. repeat split; assumption.
    + eexists _, cams, vts, ats. split; [|repeat split].
      * apply list_lookup_insert_eq. eapply lookup_lt_Some, Hself.
      * eapply lookup_insert_other; [exact Hself|exact Hcams|discriminate].
      * eapply lookup_insert_other; [exact Hself|exact Hvts|discriminate].
      * eapply lookup_insert_other; [exact Hself|exact Hats|discriminate].
      * exact Hne.
      * exact Hlabels.
      * exact Hv.
      * exact Ha.
  - rewrite (add_video_producer_run _ _ _ Hself _ _ Hvts). case_bool_decide as Hk; simpl.
    + exists b, cams, (vts ++ [t]), ats. repeat split; try assumption.
      * eapply lookup_insert_other; [exact Hvts|exact Hself|discriminate].
      * eapply lookup_insert_other; [exact Hvts|exact Hcams|discriminate].
      * apply list_lookup_insert_eq. eapply lookup_lt_Some, Hvts.
      * rewrite list_lookup_insert_ne by exact Hne. exact Hats.
      * apply Forall_app. split; [exact Hv|]. constructor; [exact Hk|constructor].
    + exists b, cams, vts, ats. repeat split; assumption.
  - rewrite (add_audio_producer_run _ _ _ Hself _ _ Hats). case_bool_decide as Hk; simpl.
    + exists b, cams, vts, (ats ++ [t]). repeat split; try assumption.
      * eapply lookup_insert_other; [exact Hats|exact Hself|discriminate].
      * eapply lookup_insert_other; [exact Hats|exact Hcams|discriminate].
      * rewrite list_lookup_insert_ne by (intros E; apply Hne; symmetry; exact E).
        exact Hvts.
      * apply list_lookup_insert_eq. eapply lookup_lt_Some, Hats.
      * apply Forall_app. split; [exact Ha|]. constructor; [exact Hk|constructor].
    + exists b, cams, vts, ats. repeat split; assumption.
Qed.

(** X4. Whatever calls are made on a builder created by [__init__], in
    whatever order and whether they raise or not, its expected set holds
    camera types of ["driver"; "wideRoad"; "road"] only, its video list holds
    video tracks only and its audio list audio tracks only. *)
Theorem builder_keeps_valid_configuration (w0 w : world) (self : loc)
    (cs : list builder_call) :
  WebRTCStreamBuilder.__init__ w0 = (Ok self, w) ->
  builder_ok self (run_builder_calls self cs w).
Proof.
  intros Hinit. apply builder_ok_init in Hinit. revert w Hinit.
  induction cs as [|c cs IH]; intros w Hok; simpl; [exact Hok|].
  apply IH, builder_ok_step, Hok.
Qed.

(** * Further properties of track routing *)

(** The only write of the handler: a video track under its label. *)
Lemma on_incoming_track_cases (self : session) (t : track) (w : world) :
  snd (WebRTCBaseStream._on_incoming_track self t w) = w \/
  exists d label,
    w !! incoming_camera_tracks self = Some (ODict d) /\
    WebRTCBaseStream._on_incoming_track self t w
    = (Ok (), <[incoming_camera_tracks self := ODict (<[label := t]> d)]> w).
Proof.
  unfold WebRTCBaseStream._on_incoming_track.
  destruct (bool_decide (kind t = "video")).
  - cbv zeta. destruct (bool_decide (length (split ":" (id t)) < 2)); [left; reflexivity|].
    destruct (split ":" (id t)) as [|label rest]; [left; reflexivity|].
    step ltac:(reflexivity). step_attr. rewrite bind_run.
    destruct (read_set (expected_incoming_camera_types self) w) as [[cams|e] w1] eqn:E;
      apply read_set_frame in E; subst w1; [|left; reflexivity].
    destruct (bool_decide (label ∈ cams)); [|left; reflexivity].
    step_attr. unfold dict_setitem, read_dict, read. rewrite !bind_run.
    destruct (w !! incoming_camera_tracks self) as [[]|] eqn:Hd;
      try (left; reflexivity).
    right. eexists _, label. split; reflexivity.
  - destruct (bool_decide (kind t = "audio")); left; reflexivity.
Qed.

(** X5. A track arrival writes nowhere but in the session's own registry:
    every other object of the store, the peer connection, the builder and
    its containers and the list of incoming audio tracks among them, is as
    it was, and no object is created. *)
Theorem arrival_touches_registry_only (self : session) (t : track) (w w' : world)
    (r : result ()) (l : loc) :
  WebRTCBaseStream._on_incoming_track self t w = (r, w') ->
  l <> incoming_camera_tracks self ->
  w' !! l = w !! l /\ length w' = length w.
Proof.
  intros Hrun Hl.
  destruct (on_incoming_track_cases self t w) as [Hsame|(d & label & _ & Hput)].
  - rewrite Hrun in Hsame. simpl in Hsame. subst w'. split; reflexivity.
  - rewrite Hput in Hrun. injection Hrun as _ <-. split.
    + apply list_lookup_insert_ne. intros E. apply Hl. symmetry. exact E.
    + apply length_insert.
Qed.

Lemma deliver_audio_tracks (self : session) (arrivals : list track) :
  forall (w : world) ts,
    w !! incoming_audio_tracks self = Some (OList ts) ->
    deliver self arrivals w !! incoming_audio_tracks self = Some (OList ts).
Proof.
  induction arrivals as [|t arrivals IH]; intros w ts Hts; simpl; [exact Hts|].
  apply IH.
  destruct (on_incoming_track_cases self t w) as [-> | (d & label & Hd & ->)]; [exact Hts|].
  simpl. eapply lookup_insert_other; [exact Hd|exact Hts|discriminate].
Qed.

Lemma deliver_relay (self : session) (arrivals : list track) subs :
  forall (w : world),
    w !! media_relay self = Some (ORelay subs) ->
    deliver self arrivals w !! media_relay self = Some (ORelay subs).
Proof.
  induction arrivals as [|t arrivals IH]; intros w Hr; simpl; [exact Hr|].
  apply IH.
  destruct (on_incoming_track_cases self t w) as [-> | (d & label & Hd & ->)]; [exact Hr|].
  simpl. eapply lookup_insert_other; [exact Hd|exact Hr|discriminate].
Qed.

(** X6. No arrival ever fills the list of incoming audio tracks: for a
    session whose list is empty, as it is when the session is built,
    [get_incoming_audio_track] raises its assertion after any sequence of
    arrivals, audio tracks included. *)
Theorem audio_track_never_available (self : session) (w : world)
    (arrivals : list track) (buffered : bool) :
  w !! incoming_audio_tracks self = Some (OList []) ->
  WebRTCBaseStream.get_incoming_audio_track self buffered (deliver self arrivals w)
  = (Raise (AssertionError no_message), deliver self arrivals w).
Proof.
  intros Hempty. unfold WebRTCBaseStream.get_incoming_audio_track.
  step_attr. step ltac:(apply read_list_Ok, deliver_audio_tracks, Hempty).
  reflexivity.
Qed.

(** X7. Through any sequence of arrivals the expected set is as it was and
    the registry holds tracks under labels of the expected set only. *)
Theorem registry_stays_within_expected (self : session) (arrivals : list track)
    (w : world) (cams : gset string) (reg : gmap string track) :
  w !! expected_incoming_camera_types self = Some (OSet cams) ->
  w !! incoming_camera_tracks self = Some (ODict reg) ->
  dom reg ⊆ cams ->
  exists reg',
    deliver self arrivals w !! expected_incoming_camera_types self = Some (OSet cams) /\
    deliver self arrivals w !! incoming_camera_tracks self = Some (ODict reg') /\
    dom reg' ⊆ cams.
Proof.
  revert w reg. induction arrivals as [|t arrivals IH]; intros w reg Hcams Hreg Hinv; simpl.
  - eauto.
  - destruct (WebRTCBaseStream._on_incoming_track self t w) as [r w1] eqn:E.
    destruct (registry_within_expected _ _ _ _ Hcams Hreg _ _ _ Hinv E)
      as (reg1 & Hcams1 & Hreg1 & Hinv1).
    simpl. exact (IH _ _ Hcams1 Hreg1 Hinv1).
Qed.

Lemma split_prefix sep (label rest : string) :
  occurrences sep label = 0 ->
  split sep (String.append label (String sep rest)) = label :: split sep rest.
Proof.
  induction label as [|a label IH]; simpl.
  - intros _. rewrite Ascii.eqb_refl. reflexivity.
  - destruct (Ascii.eqb a sep); [discriminate|]. intros H. rewrite (IH H). reflexivity.
Qed.

(** X8. A video track is routed by what precedes the first colon of its
    identifier: with the identifier [label:rest], where [label] has no colon
    and is expected, the track is stored under [label], whatever [rest] is,
    empty or with further colons. *)
Theorem identifier_routed_by_prefix (self : session) (w : world) (cams : gset string)
    (reg : gmap string track) (t : track) (label rest : string) :
  w !! expected_incoming_camera_types self = Some (OSet cams) ->
  w !! incoming_camera_tracks self = Some (ODict reg) ->
  kind t = "video" ->
  id t = String.append label (String ":" rest) ->
  occurrences ":" label = 0 ->
  label ∈ cams ->
  WebRTCBaseStream._on_incoming_track self t w
  = (Ok (), <[incoming_camera_tracks self := ODict (<[label := t]> reg)]> w).
Proof.
  intros Hcams Hreg Hk Hid Hlabel Hin.
  rewrite (video_arrival_run _ _ _ _ Hcams Hreg t label (split ":" rest) Hk).
  - rewrite bool_decide_eq_true_2 by exact Hin. reflexivity.
  - rewrite Hid. apply split_prefix, Hlabel.
  - apply split_nonempty.
Qed.

(** X9. [get_incoming_video_track] writes nowhere but in the relay: when
    it raises, the store is as before; when it returns, the relay has the new
    subscription after those it had and every other object of the store, the
    registry among them, is as before. *)
Theorem video_getter_touches_relay_only (self : session) (camera_type : string)
    (buffered : bool) (w w' : world) (r : result relay_track) :
  WebRTCBaseStream.get_incoming_video_track self camera_type buffered w = (r, w') ->
  match r with
  | Raise _ => w' = w
  | Ok handle =>
      exists subs,
        w !! media_relay self = Some (ORelay subs) /\
        w' = <[media_relay self := ORelay (subs ++ [handle])]> w /\
        forall l, l <> media_relay self -> w' !! l = w !! l
  end.
Proof.
  unfold WebRTCBaseStream.get_incoming_video_track.
  step_attr. rewrite bind_run.
  destruct (read_dict (incoming_camera_tracks self) w) as [[d|e] w1] eqn:E.
  - assert (w1 = w) as ->.
    { revert E. unfold read_dict, read. rewrite bind_run.
      destruct (w !! incoming_camera_tracks self) as [[]|]; intros [= _ <-]; reflexivity. }
    destruct (bool_decide (camera_type ∈ dom d)).
    + step ltac:(reflexivity). step_attr. step ltac:(exact E).
      destruct (d !! camera_type) as [t|].
      * step ltac:(reflexivity). step_attr.
        unfold relay_subscribe, read. rewrite !bind_run.
        destruct (w !! media_relay self) as [[| | | |subs|]|] eqn:Hrelay;
          try (intros [= <- <-]; reflexivity).
        intros [= <- <-]. exists subs. split; [reflexivity|]. split; [reflexivity|].
        intros l Hl. apply list_lookup_insert_ne. intros Heq. apply Hl. symmetry. exact Heq.
      * rewrite bind_run. intros [= <- <-]. reflexivity.
    + rewrite bind_run. intros [= <- <-]. reflexivity.
  - revert E. unfold read_dict, read. rewrite bind_run.
    destruct (w !! incoming_camera_tracks self) as [[]|]; intros [= <- <-] [= <- <-];
      reflexivity.
Qed.

(** * Further properties of the negotiation *)

(** X11. When the signaling function raises on the payload it is sent, the
    expected labels being listed in the order of the run, [start] of the
    offer side raises the same exception: the offer has been created and set
    as local description by then, and [setRemoteDescription] is never
    called. *)
Theorem offer_start_signaling_failure (eng : engine) (self : session)
    (provider : ConnectionProvider) (w : world) (cams : gset string)
    (cs : list pc_call) (ld rd : option desc) (off ld' : desc) (e : exn) :
  session_provider self = Some provider ->
  w !! expected_incoming_camera_types self = Some (OSet cams) ->
  w !! peer_connection self = Some (OPeer (Peer cs ld rd)) ->
  let placed := cs ++ consumer_calls (size cams) (extected_incoming_audio self) in
  engine_createOffer eng (Peer (placed ++ [CreateOffer]) ld rd) = Ok off ->
  engine_setLocalDescription eng
    (Peer ((placed ++ [CreateOffer]) ++ [SetLocalDescription off]) ld rd) off = Ok ld' ->
  provider (MkStreamingOffer (sdp ld') (type ld') (list_of_set eng cams)
              (extected_incoming_audio self)) = Raise e ->
  WebRTCOfferStream.start eng self w
  = (Raise e,
     <[peer_connection self :=
         OPeer (Peer ((placed ++ [CreateOffer]) ++ [SetLocalDescription off])
                     (Some ld') rd)]> w).
Proof.
  intros Hprov Hcams Hpeer placed Hoff Hld Hsig. unfold WebRTCOfferStream.start.
  step ltac:(apply add_consumer_tracks_Ok; [exact Hcams|exact Hpeer]).
  step_attr. rewrite bind_run, pc_createOffer_run with (cs := placed) (ld := ld) (rd := rd)
    by (eapply peer_after_call, Hpeer).
  rewrite Hoff, list_insert_insert_eq. step_attr.
  rewrite bind_run, pc_setLocalDescription_run
    with (cs := placed ++ [CreateOffer]) (ld := ld) (rd := rd)
    by (eapply peer_after_call, Hpeer).
  rewrite Hld, list_insert_insert_eq. step_attr.
  step ltac:(eapply read_peer_Ok, peer_after_call, Hpeer). simpl localDescription.
  rewrite bind_run. simpl. step_attr.
  step ltac:(eapply read_set_Ok, cams_after_call; [exact Hpeer|exact Hcams]).
  step_attr. step ltac:(apply attr_session_provider, Hprov).
  rewrite bind_run. unfold lift. rewrite Hsig. reflexivity.
Qed.

(** X12. When the engine refuses the offer as remote description, [start] of
    the answer side raises the engine's exception at once: no placeholder is
    registered, no track attached and no answer created, and the connection
    has no remote description. *)
Theorem answer_start_rejected_offer (eng : engine) (self : session)
    (o : StreamingOffer) (w : world) (cs : list pc_call) (ld : option desc) (e : exn) :
  offer self = Some o ->
  w !! peer_connection self = Some (OPeer (Peer cs ld None)) ->
  engine_setRemoteDescription eng
    (Peer (cs ++ [SetRemoteDescription (offer_desc o)]) ld None) (offer_desc o) = Raise e ->
  WebRTCAnswerStream.start eng self w
  = (Raise e,
     <[peer_connection self :=
         OPeer (Peer (cs ++ [SetRemoteDescription (offer_desc o)]) ld None)]> w).
Proof.
  intros Hoffer Hpeer Hrej. unfold WebRTCAnswerStream.start.
  step_attr. step ltac:(apply read_peer_Ok, Hpeer). simpl remoteDescription.
  rewrite bind_run. simpl. step_attr.
  step ltac:(apply attr_offer_bound, Hoffer).
  rewrite bind_run, pc_setRemoteDescription_run with (cs := cs) (ld := ld) (rd := None)
    by exact Hpeer.
  rewrite Hrej. reflexivity.
Qed.

(** X14. For a session built by [answer] and started as built, a completed
    [start] has made its calls in this order: the offer set as remote
    description, the placeholders, the video tracks, the audio tracks, the
    answer created and set as local description; [start] returns the local
    description that the connection then exposes. *)
Theorem answer_side_call_order (eng : engine) (builder_ref : loc) (b : builder)
    (w w1 w2 : world) (cams : gset string) (vts ats : list track)
    (o : StreamingOffer) (s : session) (r : option desc) :
  w !! builder_ref = Some (OBuilder b) ->
  w !! consumed_camera_tracks b = Some (OSet cams) ->
  w !! video_producing_tracks b = Some (OList vts) ->
  w !! audio_producing_tracks b = Some (OList ats) ->
  WebRTCStreamBuilder.answer builder_ref o w = (Ok s, w1) ->
  WebRTCAnswerStream.start eng s w1 = (Ok r, w2) ->
  exists ans ld',
    r = Some ld' /\
    peer_calls s w2
    = [On "connectionstatechange"; On "datachannel"; On "track"]
      ++ [SetRemoteDescription (offer_desc o)]
      ++ consumer_calls (size cams) (consume_audio b)
      ++ (AddTrack <$> vts) ++ (AddTrack <$> ats)
      ++ [CreateAnswer; SetLocalDescription ans].
Proof.
  intros Hself Hcams Hvts Hats Hbuild Hstart.
  rewrite (builder_answer_run _ _ _ Hself) in Hbuild. injection Hbuild as <- <-.
  assert (Hpeer : (w ++ session_objects [])
                  !! peer_connection (session_of b w None (Some o))
                  = Some (OPeer (Peer [On "connectionstatechange"; On "datachannel";
                                       On "track"] None None)))
    by (apply list_lookup_middle; reflexivity).
  eapply answer_start_Ok in Hstart as (_ & rd' & ans & ld' & -> & ->);
    [ | apply lookup_app_l_Some, Hcams | exact Hpeer
      | apply lookup_app_l_Some, Hvts | apply lookup_app_l_Some, Hats | reflexivity ].
  exists ans, ld'. split; [reflexivity|].
  unfold peer_calls. rewrite (peer_after_call _ _ _ _ Hpeer). reflexivity.
Qed.

Lemma attached_app cs1 cs2 : attached (cs1 ++ cs2) = attached cs1 ++ attached cs2.
Proof. apply omap_app. Qed.

Lemma attached_addTrack ts : attached (AddTrack <$> ts) = ts.
Proof. induction ts as [|t ts IH]; [reflexivity|]. simpl. f_equal. exact IH. Qed.

Lemma attached_consumer_calls n a : attached (consumer_calls n a) = [].
Proof.
  unfold consumer_calls. rewrite attached_app.
  replace (attached (replicate n (AddTransceiver "video" "recvonly"))) with (@nil track)
    by (induction n as [|n IH]; [reflexivity|exact IH]).
  destruct a; reflexivity.
Qed.

Lemma build_run (builder_ref : loc) (b : builder) (w : world) (vts ats : list track)
    (role : ConnectionProvider + StreamingOffer) :
  w !! builder_ref = Some (OBuilder b) ->
  w !! video_producing_tracks b = Some (OList vts) ->
  w !! audio_producing_tracks b = Some (OList ats) ->
  build builder_ref role w
  = match role with
    | inl provider =>
        (Ok (session_of b w (Some provider) None),
         w ++ session_objects ((AddTrack <$> vts) ++ (AddTrack <$> ats)))
    | inr o => (Ok (session_of b w None (Some o)), w ++ session_objects [])
    end.
Proof.
  intros Hself Hvts Hats. destruct role as [provider|o]; simpl.
  - apply (builder_offer_run _ _ _ _ _ Hself Hvts Hats).
  - apply (builder_answer_run _ _ _ Hself).
Qed.

(** X15. A video track added to the builder after the session was built is
    attached by [start] of the answer side, after the tracks that were there,
    and is not attached by [start] of the offer side, which attached its
    tracks when it was built. *)
Theorem late_producer_attached_by_answer_only (eng : engine) (builder_ref : loc)
    (b : builder) (w w1 w2 w3 : world) (cams : gset string) (vts ats : list track)
    (role : ConnectionProvider + StreamingOffer) (s : session) (t : track)
    (r : option desc) :
  w !! builder_ref = Some (OBuilder b) ->
  w !! consumed_camera_tracks b = Some (OSet cams) ->
  w !! video_producing_tracks b = Some (OList vts) ->
  w !! audio_producing_tracks b = Some (OList ats) ->
  video_producing_tracks b <> audio_producing_tracks b ->
  build builder_ref role w = (Ok s, w1) ->
  WebRTCStreamBuilder.add_video_producer builder_ref t w1 = (Ok (), w2) ->
  start_of role eng s w2 = (Ok r, w3) ->
  attached (peer_calls s w3)
  = match role with
    | inl _ => vts ++ ats
    | inr _ => (vts ++ [t]) ++ ats
    end.
Proof.
  intros Hself Hcams Hvts Hats Hne Hbuild Hadd Hstart.
  rewrite (build_run _ _ _ _ _ role Hself Hvts Hats) in Hbuild.
  assert (exists provider o extra,
            s = session_of b w provider o /\ w1 = w ++ session_objects extra /\
            match role with
            | inl p => provider = Some p /\ extra = (AddTrack <$> vts) ++ (AddTrack <$> ats)
            | inr o' => o = Some o' /\ extra = []
            end)
    as (provider & o & extra & -> & -> & Hrole).
  { destruct role; injection Hbuild as <- <-; eauto 10. }
  clear Hbuild.
  set (w1 := w ++ session_objects extra) in *.
  assert (Hself1 : w1 !! builder_ref = Some (OBuilder b)) by apply lookup_app_l_Some, Hself.
  assert (Hcams1 : w1 !! consumed_camera_tracks b = Some (OSet cams))
    by apply lookup_app_l_Some, Hcams.
  assert (Hvts1 : w1 !! video_producing_tracks b = Some (OList vts))
    by apply lookup_app_l_Some, Hvts.
  assert (Hats1 : w1 !! audio_producing_tracks b = Some (OList ats))
    by apply lookup_app_l_Some, Hats.
  assert (Hpeer1 : w1 !! length w
                   = Some (OPeer (Peer ([On "connectionstatechange"; On "datachannel";
                                         On "track"] ++ extra) None None)))
    by (apply list_lookup_middle; reflexivity).
  rewrite (add_video_producer_run _ _ _ Hself1 _ _ Hvts1) in Hadd.
  destruct (bool_decide (kind t = "video")); [|discriminate].
  injection Hadd as <-.
  assert (Hcams2 : <[video_producing_tracks b := OList (vts ++ [t])]> w1
                   !! consumed_camera_tracks b = Some (OSet cams))
    by (eapply lookup_insert_other; [exact Hvts1|exact Hcams1|discriminate]).
  assert (Hpeer2 : <[video_producing_tracks b := OList (vts ++ [t])]> w1 !! length w
                   = Some (OPeer (Peer ([On "connectionstatechange"; On "datachannel";
                                         On "track"] ++ extra) None None)))
    by (eapply lookup_insert_other; [exact Hvts1|exact Hpeer1|discriminate]).
  destruct role as [p|o']; destruct Hrole as [-> ->]; simpl in Hstart.
  - eapply offer_start_Ok in Hstart as (off & ld' & ans & rd' & _ & _ & ->);
      [ | exact Hcams2 | exact Hpeer2 | reflexivity ].
    unfold peer_calls. simpl peer_connection.
    rewrite (peer_after_call _ _ _ _ Hpeer2). simpl calls.
    change (attached (?a :: ?b :: ?c :: ?l)) with (attached l).
    rewrite !attached_app, !attached_addTrack, attached_consumer_calls.
    simpl. rewrite app_nil_r. reflexivity.
  - eapply answer_start_Ok in Hstart as (_ & rd' & ans & ld' & _ & ->);
      [ | exact Hcams2 | exact Hpeer2
        | apply list_lookup_insert_eq; eapply lookup_lt_Some, Hvts1
        | rewrite list_lookup_insert_ne by exact Hne; exact Hats1
        | reflexivity ].
    unfold peer_calls. simpl peer_connection.
    rewrite (peer_after_call _ _ _ _ Hpeer2). simpl calls.
    change (attached (?a :: ?b :: ?c :: ?d :: ?l)) with (attached l).
    rewrite !attached_app, !attached_addTrack, attached_consumer_calls.
    simpl. rewrite app_nil_r. reflexivity.
Qed.

(** X16. Two sessions built from one builder share its expected set but have
    each their own peer connection, relay, registry and list of audio tracks:
    a track that arrives on the first leaves the registry and the connection
    of the second as they were. *)
Theorem sessions_of_one_builder_are_separate (builder_ref : loc) (b : builder)
    (w w1 w2 : world) (vts ats : list track)
    (role1 role2 : ConnectionProvider + StreamingOffer) (s1 s2 : session) :
  w !! builder_ref = Some (OBuilder b) ->
  w !! video_producing_tracks b = Some (OList vts) ->
  w !! audio_producing_tracks b = Some (OList ats) ->
  build builder_ref role1 w = (Ok s1, w1) ->
  build builder_ref role2 w1 = (Ok s2, w2) ->
  expected_incoming_camera_types s1 = expected_incoming_camera_types s2 /\
  peer_connection s1 <> peer_connection s2 /\
  media_relay s1 <> media_relay s2 /\
  incoming_camera_tracks s1 <> incoming_camera_tracks s2 /\
  incoming_audio_tracks s1 <> incoming_audio_tracks s2 /\
  forall (t : track) (r : result ()) (w3 : world),
    WebRTCBaseStream._on_incoming_track s1 t w2 = (r, w3) ->
    registry s2 w3 = registry s2 w2 /\ peer_calls s2 w3 = peer_calls s2 w2.
Proof.
  intros Hself Hvts Hats Hb1 Hb2.
  rewrite (build_run _ _ _ _ _ role1 Hself Hvts Hats) in Hb1.
  assert (exists p1 o1 extra1,
            s1 = session_of b w p1 o1 /\ w1 = w ++ session_objects extra1)
    as (p1 & o1 & extra1 & -> & ->)
    by (destruct role1; injection Hb1 as <- <-; eauto).
  clear Hb1.
  rewrite (build_run _ b _ vts ats role2) in Hb2
    by (apply lookup_app_l_Some; assumption).
  assert (exists p2 o2 extra2,
            s2 = session_of b (w ++ session_objects extra1) p2 o2 /\
            w2 = (w ++ session_objects extra1) ++ session_objects extra2)
    as (p2 & o2 & extra2 & -> & ->)
    by (destruct role2; injection Hb2 as <- <-; eauto).
  clear Hb2. simpl. rewrite !length_app. simpl length.
  repeat split; try lia.
  - destruct (on_incoming_track_cases (session_of b w p1 o1) t
                ((w ++ session_objects extra1) ++ session_objects extra2))
      as [Hsame | (d & label & _ & Hput)].
    + rewrite H in Hsame. simpl in Hsame. subst w3. reflexivity.
    + rewrite Hput in H. injection H as _ <-. unfold registry. simpl.
      rewrite list_lookup_insert_ne by (rewrite length_app; simpl; lia). reflexivity.
  - destruct (on_incoming_track_cases (session_of b w p1 o1) t
                ((w ++ session_objects extra1) ++ session_objects extra2))
      as [Hsame | (d & label & _ & Hput)].
    + rewrite H in Hsame. simpl in Hsame. subst w3. reflexivity.
    + rewrite Hput in H. injection H as _ <-. unfold peer_calls. simpl.
      rewrite list_lookup_insert_ne by (rewrite length_app; simpl; lia). reflexivity.
Qed.

(** X17. What the offer side sends and returns.  In a completed [start] the
    signaling function has answered the payload made of the local description
    that the connection exposes, the labels of the expected set in the order
    in which the run lists that set, and the audio flag; its answer is what
    was set as remote description, and [start] returns the remote description
    that the connection then exposes. *)
Theorem offer_payload_carries_expectations (eng : engine) (self : session)
    (provider : ConnectionProvider) (w w' : world) (cams : gset string)
    (cs : list pc_call) (ld rd : option desc) (r : option desc) :
  session_provider self = Some provider ->
  w !! expected_incoming_camera_types self = Some (OSet cams) ->
  w !! peer_connection self = Some (OPeer (Peer cs ld rd)) ->
  WebRTCOfferStream.start eng self w = (Ok r, w') ->
  exists p' ld' ans,
    w' !! peer_connection self = Some (OPeer p') /\
    localDescription p' = Some ld' /\
    provider (MkStreamingOffer (sdp ld') (type ld') (list_of_set eng cams)
                (extected_incoming_audio self)) = Ok ans /\
    last (calls p') = Some (SetRemoteDescription ans) /\
    r = remoteDescription p' /\
    is_Some r.
Proof.
  intros Hprov Hcams Hpeer Hstart.
  destruct (offer_start_Ok _ _ _ _ _ _ _ Hcams Hpeer _ _ _ Hprov Hstart)
    as (off & ld' & ans & rd' & Hans & -> & ->).
  eexists _, ld', ans. split; [eapply peer_after_call, Hpeer|].
  simpl. repeat split.
  - exact Hans.
  - change [CreateOffer; SetLocalDescription off; SetRemoteDescription ans]
      with ([CreateOffer; SetLocalDescription off] ++ [SetRemoteDescription ans]).
    rewrite !app_assoc. apply last_snoc.
  - eauto.
Qed.

(** X13. The answer side starts once: after a completed [start] the
    connection has a remote description, and every further [start], however
    many are tried, raises "Connection already established" and leaves the
    store as it is. *)
Theorem answer_start_only_once (eng : engine) (self : session) (o : StreamingOffer)
    (w w' : world) (cams : gset string) (vts ats : list track) (p : peer)
    (r : option desc) (n : nat) :
  offer self = Some o ->
  w !! expected_incoming_camera_types self = Some (OSet cams) ->
  w !! outgoing_video_tracks self = Some (OList vts) ->
  w !! outgoing_audio_tracks self = Some (OList ats) ->
  w !! peer_connection self = Some (OPeer p) ->
  WebRTCAnswerStream.start eng self w = (Ok r, w') ->
  for_ (replicate (S n) ()) (fun _ => WebRTCAnswerStream.start eng self;; ret ()) w'
  = (Raise (AssertionError "Connection already established"), w').
Proof.
  intros Hoffer Hcams Hvts Hats Hpeer Hstart. simpl.
  rewrite bind_run.
  erewrite (bind_Raise (WebRTCAnswerStream.start eng self))
    by (eapply answer_start_twice; eassumption).
  reflexivity.
Qed.

(** ** Instances of the further properties *)

Lemma audio_consumer_at_most_once_witness :
  WebRTCStreamBuilder.add_audio_consumer 3 sample_builder_world
  = (Ok (), <[3 := OBuilder (Builder 0 true 1 2 None None None)]> sample_builder_world).
Proof.
  exact (proj1 (audio_consumer_at_most_once 3 sample_builder sample_builder_world
                  eq_refl eq_refl)).
Defined.

Lemma video_consumers_collect_labels_witness :
  exists w',
    for_ ["wideRoad"; "road"; "wideRoad"] (WebRTCStreamBuilder.add_video_consumer 3)
         sample_builder_world = (Ok (), w') /\
    w' !! 0 = Some (OSet (list_to_set ["wideRoad"; "road"; "wideRoad"] ∪ sample_cams)) /\
    (forall x, x ∈ (list_to_set ["wideRoad"; "road"; "wideRoad"] ∪ sample_cams : gset string)
               <-> x ∈ ["wideRoad"; "road"; "wideRoad"] \/ x ∈ sample_cams).
Proof.
  apply (video_consumers_collect_labels 3 sample_builder sample_builder_world sample_cams
           ["wideRoad"; "road"; "wideRoad"]);
    first [reflexivity | by_evaluation].
Defined.

Lemma video_producers_kept_in_order_witness :
  for_ [Track "video" "road:1"] (WebRTCStreamBuilder.add_video_producer 3)
       sample_builder_world
  = (Ok (), <[1 := OList ([sample_track] ++ [Track "video" "road:1"])]> sample_builder_world) /\
  for_ ([Track "video" "road:1"] ++ Track "audio" "mic" :: [Track "video" "road:2"])
       (WebRTCStreamBuilder.add_video_producer 3) sample_builder_world
  = (Raise (AssertionError no_message),
     <[1 := OList ([sample_track] ++ [Track "video" "road:1"])]> sample_builder_world).
Proof.
  apply (video_producers_kept_in_order 3 sample_builder sample_builder_world
           [sample_track] [Track "video" "road:1"] [Track "video" "road:2"]
           (Track "audio" "mic"));
    first [reflexivity | discriminate | by_evaluation].
Defined.

Lemma builder_keeps_valid_configuration_witness :
  builder_ok 3
    (run_builder_calls 3
       [AddVideoConsumer "rear"; AddVideoConsumer "road"; AddAudioConsumer;
        AddAudioConsumer; AddVideoProducer (Track "audio" "mic");
        AddAudioProducer (Track "audio" "mic")]
       [OSet ∅; OList []; OList []; OBuilder (Builder 0 false 1 2 None None None)]).
Proof.
  apply (builder_keeps_valid_configuration [] _ 3). vm_compute. reflexivity.
Defined.

Lemma arrival_touches_registry_only_witness :
  snd (WebRTCBaseStream._on_incoming_track sample_session (Track "video" "road:abc")
         sample_world) !! 4
  = sample_world !! 4 /\
  length (snd (WebRTCBaseStream._on_incoming_track sample_session
                 (Track "video" "road:abc") sample_world))
  = length sample_world.
Proof.
  apply (arrival_touches_registry_only sample_session (Track "video" "road:abc")
           sample_world _ (Ok ()) 4);
    [vm_compute; reflexivity | discriminate].
Defined.

Lemma audio_track_never_available_witness :
  WebRTCBaseStream.get_incoming_audio_track sample_answer_session false
    (deliver sample_answer_session [Track "audio" "mic"; Track "video" "road:1"]
       sample_answer_world)
  = (Raise (AssertionError no_message),
     deliver sample_answer_session [Track "audio" "mic"; Track "video" "road:1"]
       sample_answer_world).
Proof. apply audio_track_never_available. reflexivity. Defined.

Lemma registry_stays_within_expected_witness :
  exists reg',
    deliver sample_session [Track "video" "road:1"; Track "video" "wideRoad:2"]
      sample_world !! expected_incoming_camera_types sample_session
    = Some (OSet sample_cams) /\
    deliver sample_session [Track "video" "road:1"; Track "video" "wideRoad:2"]
      sample_world !! incoming_camera_tracks sample_session
    = Some (ODict reg') /\
    dom reg' ⊆ sample_cams.
Proof.
  apply (registry_stays_within_expected sample_session
           [Track "video" "road:1"; Track "video" "wideRoad:2"] sample_world
           sample_cams ∅);
    first [reflexivity | by_evaluation].
Defined.

Lemma identifier_routed_by_prefix_witness :
  WebRTCBaseStream._on_incoming_track sample_session (Track "video" "road:cam:7")
    sample_world
  = (Ok (), <[6 := ODict (<["road" := Track "video" "road:cam:7"]> ∅)]> sample_world).
Proof.
  apply (identifier_routed_by_prefix sample_session sample_world sample_cams ∅
           (Track "video" "road:cam:7") "road" "cam:7");
    first [reflexivity | by_evaluation].
Defined.

Lemma video_getter_touches_relay_only_witness :
  exists subs,
    <[6 := ODict (<["road" := Track "video" "road:abc"]> ∅)]> sample_world !! 5
    = Some (ORelay subs) /\
    snd (WebRTCBaseStream.get_incoming_video_track sample_session "road" false
           (<[6 := ODict (<["road" := Track "video" "road:abc"]> ∅)]> sample_world))
    = <[5 := ORelay (subs ++ [RelayTrack (Track "video" "road:abc") false])]>
        (<[6 := ODict (<["road" := Track "video" "road:abc"]> ∅)]> sample_world) /\
    forall l, l <> 5 ->
      snd (WebRTCBaseStream.get_incoming_video_track sample_session "road" false
             (<[6 := ODict (<["road" := Track "video" "road:abc"]> ∅)]> sample_world))
      !! l
      = <[6 := ODict (<["road" := Track "video" "road:abc"]> ∅)]> sample_world !! l.
Proof.
  apply (video_getter_touches_relay_only sample_session "road" false
           (<[6 := ODict (<["road" := Track "video" "road:abc"]> ∅)]> sample_world) _
           (Ok (RelayTrack (Track "video" "road:abc") false))).
  vm_compute. reflexivity.
Defined.


Lemma offer_start_signaling_failure_witness :
  list_of_set reversing_engine sample_cams = ["driver"; "road"] /\
  WebRTCOfferStream.start reversing_engine sample_failing_session sample_world
  = (Raise (EngineError "signaling failed"),
     <[4 := OPeer (Peer ((((sample_handlers ++ [AddTrack sample_track])
                            ++ consumer_calls (size sample_cams) false)
                           ++ [CreateOffer])
                          ++ [SetLocalDescription (Desc "local offer" "offer")])
                        (Some (Desc "local offer" "offer")) None)]> sample_world).
Proof.
  split; [vm_compute; reflexivity|].
  apply (offer_start_signaling_failure reversing_engine sample_failing_session
           failing_provider sample_world sample_cams
           (sample_handlers ++ [AddTrack sample_track]) None None
           (Desc "local offer" "offer") (Desc "local offer" "offer")
           (EngineError "signaling failed")); vm_compute; reflexivity.
Defined.

Lemma answer_start_rejected_offer_witness :
  WebRTCAnswerStream.start rejecting_engine sample_answer_session sample_answer_world
  = (Raise (EngineError "invalid description"),
     <[4 := OPeer (Peer (sample_handlers ++ [SetRemoteDescription (offer_desc sample_offer)])
                        None None)]> sample_answer_world).
Proof.
  apply (answer_start_rejected_offer rejecting_engine sample_answer_session sample_offer
           sample_answer_world sample_handlers None (EngineError "invalid description"));
    reflexivity.
Defined.

Lemma answer_start_only_once_witness :
  for_ (replicate 2 ())
       (fun _ => WebRTCAnswerStream.start accepting_engine sample_answer_session;; ret ())
       (snd (WebRTCAnswerStream.start accepting_engine sample_answer_session
               sample_answer_world))
  = (Raise (AssertionError "Connection already established"),
     snd (WebRTCAnswerStream.start accepting_engine sample_answer_session
            sample_answer_world)).
Proof.
  apply (answer_start_only_once accepting_engine sample_answer_session sample_offer
           sample_answer_world _ sample_cams [sample_track] []
           (Peer sample_handlers None None) (Some (Desc "local answer" "answer")) 1);
    vm_compute; reflexivity.
Defined.

Lemma answer_side_call_order_witness :
  exists ans ld',
    Some (Desc "local answer" "answer") = Some ld' /\
    peer_calls sample_answer_session
      (snd (WebRTCAnswerStream.start accepting_engine sample_answer_session
              sample_answer_world))
    = [On "connectionstatechange"; On "datachannel"; On "track"]
      ++ [SetRemoteDescription (offer_desc sample_offer)]
      ++ consumer_calls (size sample_cams) true
      ++ (AddTrack <$> [sample_track]) ++ (AddTrack <$> [])
      ++ [CreateAnswer; SetLocalDescription ans].
Proof.
  apply (answer_side_call_order accepting_engine 3 sample_audio_builder
           sample_audio_builder_world sample_answer_world _ sample_cams [sample_track] []
           sample_offer sample_answer_session (Some (Desc "local answer" "answer")));
    vm_compute; reflexivity.
Defined.

Lemma late_producer_attached_by_answer_only_witness :
  attached
    (peer_calls sample_plain_answer_session
       (snd (WebRTCAnswerStream.start accepting_engine sample_plain_answer_session
               (<[1 := OList [sample_track; Track "video" "road:9"]]>
                  (sample_builder_world ++ session_objects [])))))
  = ([sample_track] ++ [Track "video" "road:9"]) ++ [].
Proof.
  apply (late_producer_attached_by_answer_only accepting_engine 3 sample_builder
           sample_builder_world (sample_builder_world ++ session_objects [])
           (<[1 := OList [sample_track; Track "video" "road:9"]]>
              (sample_builder_world ++ session_objects []))
           _ sample_cams [sample_track] [] (inr sample_offer)
           sample_plain_answer_session (Track "video" "road:9")
           (Some (Desc "local answer" "answer")));
    first [discriminate | vm_compute; reflexivity].
Defined.

Lemma sessions_of_one_builder_are_separate_witness :
  registry sample_second_session
    (snd (WebRTCBaseStream._on_incoming_track sample_session (Track "video" "road:abc")
            (sample_world ++ session_objects [])))
  = registry sample_second_session (sample_world ++ session_objects []) /\
  peer_calls sample_second_session
    (snd (WebRTCBaseStream._on_incoming_track sample_session (Track "video" "road:abc")
            (sample_world ++ session_objects [])))
  = peer_calls sample_second_session (sample_world ++ session_objects []).
Proof.
  destruct (sessions_of_one_builder_are_separate 3 sample_builder sample_builder_world
              sample_world (sample_world ++ session_objects []) [sample_track] []
              (inl answering_provider) (inr sample_offer) sample_session
              sample_second_session eq_refl eq_refl eq_refl eq_refl eq_refl)
    as (_ & _ & _ & _ & _ & H).
  apply (H (Track "video" "road:abc") (Ok ())). vm_compute. reflexivity.
Defined.

Lemma offer_payload_carries_expectations_witness :
  exists p' ld' ans,
    snd (WebRTCOfferStream.start reversing_engine sample_echo_session sample_world) !! 4
    = Some (OPeer p') /\
    localDescription p' = Some ld' /\
    echo_first_provider (MkStreamingOffer (sdp ld') (type ld') ["driver"; "road"] false)
    = Ok ans /\
    last (calls p') = Some (SetRemoteDescription ans) /\
    Some (Desc "driver" "answer") = remoteDescription p' /\
    is_Some (Some (Desc "driver" "answer")).
Proof.
  apply (offer_payload_carries_expectations reversing_engine sample_echo_session
           echo_first_provider sample_world _ sample_cams
           (sample_handlers ++ [AddTrack sample_track]) None None
           (Some (Desc "driver" "answer")));
    vm_compute; reflexivity.
Defined.
